(** * polars_api_compat.cudf.dataframe_object

    A shallow embedding of [src/polars_api_compat/cudf/dataframe_object.py]:
    the eager [DataFrame] and the deferred [LazyFrame] wrappers over a
    columnar engine frame, together with the properties the specification
    states about them.

    Layout: values and engine frames; exceptions and the effect monad
    (a log of engine calls and an outcome); Python containers ([dict],
    [Counter], [set]); the engine operations; the helpers of the package
    that live outside this module; the two classes; the theorems. *)

From Stdlib Require Import ZArith Ascii String List Sorting.Sorted Permutation.
From stdpp Require Import base decidable option list sorting gmap strings pretty.

Local Open Scope string_scope.
Local Open Scope list_scope.

(** ** Values and engine frames *)

(** A cell of a column.  The engine's columns are typed; a column is
    boolean exactly when every cell is a [VBool]. *)
Inductive value : Type :=
| VBool (b : bool)
| VInt (z : Z)
| VStr (s : string).

Global Instance value_eq_dec : EqDecision value.
Proof. solve_decision. Defined.

Definition is_bool (v : value) : bool :=
  match v with VBool _ => true | _ => false end.

Module pd.

(** The engine's [DataFrame]: row labels (the index) and the columns in
    their order.  Nothing here forbids a repeated column label; that is
    what the wrappers' constructors check. *)
Record DataFrame : Type := mkDataFrame {
  index : list Z;
  data : list (string * list value)
}.

(** [df.columns] / [df.columns.to_list()] *)
Definition columns (df : DataFrame) : list string := (data df).*1.

(** [len(df)] *)
Definition nrows (df : DataFrame) : nat := length (index df).

(** Every column holds one cell per row label. *)
Definition aligned (df : DataFrame) : Prop :=
  Forall (fun c => length c = nrows df) (data df).*2.

End pd.

(** The package's [Series] wrapper: [series.name] and the engine column
    [series.series].  The engine column carries the row labels of the frame
    the expression was evaluated against; as in the specification's data
    model it is kept here as the ordered cells, aligned by position with
    that frame's rows. *)
Record Series : Type := mkSeries {
  name : string;
  series : list value
}.

(** ** Exceptions *)

Inductive message : Type :=
| Expected_unique_column_names (col : string) (count : nat)
| Only_inner_join_supported
| Found_overlapping_columns (overlap : gset string)
| No_objects_to_concatenate
| Length_of_ascending (n_ascending n_by : nat)
| Incompatible_lengths (n_mask n_rows : nat)
| Unalignable_boolean_indexer
| Unsupported_operand
| Reduce_of_empty_iterable
| Any_only_where_all_dtypes_are_bool
| Multiple_values_for_argument (parameter : string).

Inductive exn : Type :=
| ValueError (m : message)
| TypeError (m : message)
| IndexingError (m : message)
| IndexError
| KeyError (label : value).

(** The text of the messages whose rendering is fixed by the source
    (the text of a [set] depends on its iteration order and is left out). *)
Definition render (m : message) : option string :=
  match m with
  | Expected_unique_column_names col count =>
      Some ("Expected unique column names, got " +:+ col +:+ " "
              +:+ pretty count +:+ " time(s)")
  | Only_inner_join_supported =>
      Some "Only inner join supported for now, others coming soon"
  | Any_only_where_all_dtypes_are_bool =>
      Some "'any' can only be called on DataFrame where all dtypes are 'bool'"
  | _ => None
  end.

(** ** Engine calls and the effect monad *)

(** The operations of the engine that move data.  A computation logs them
    in the order in which it performs them. *)
Inductive call : Type :=
| call_concat (objs : list (string * list value))
| call_loc (df : pd.DataFrame) (mask : list value)
| call_assign (df : pd.DataFrame) (kwargs : list (string * list value))
| call_sort_values (df : pd.DataFrame) (by_ : list string)
    (ascending : bool + list bool)
| call_merge (left right : pd.DataFrame) (left_on right_on : list string)
    (how : string).

(** A computation: the engine calls performed so far, and either the
    exception that stopped it or its value. *)
Definition M (A : Type) : Type := (list call * (exn + A))%type.

Definition ret {A} (x : A) : M A := ([], inr x).
Definition raise {A} (e : exn) : M A := ([], inl e).
Definition bind {A B} (m : M A) (k : A -> M B) : M B :=
  match m with
  | (t, inl e) => (t, inl e)
  | (t, inr x) => let '(t', r) := k x in (t ++ t', r)
  end.
(** A step that touches no data: only its outcome matters. *)
Definition lift {A} (r : exn + A) : M A := ([], r).
(** Perform one engine call whose outcome is [r]. *)
Definition perform {A} (c : call) (r : exn + A) : M A := ([c], r).

Notation "'let*' x ':=' m 'in' k" := (bind m (fun x => k))
  (at level 10, x name, m at level 100, k at level 200,
   format "'[v' 'let*'  x  ':='  m  'in' '/' k ']'").

Definition trace {A} (m : M A) : list call := fst m.
Definition outcome {A} (m : M A) : exn + A := snd m.

(** ** Python containers *)

(** A [dict] with string keys: insertion-ordered; assigning to a key that
    is present keeps its position and replaces its value. *)
Fixpoint dict_set {V} (k : string) (v : V) (d : list (string * V))
  : list (string * V) :=
  match d with
  | [] => [(k, v)]
  | (k', v') :: d' =>
      if decide (k = k') then (k', v) :: d' else (k', v') :: dict_set k v d'
  end.

(** [{key(x): val(x) for x in xs}] *)
Definition dict_comprehension {X V} (key : X -> string) (val : X -> V)
    (xs : list X) : list (string * V) :=
  fold_left (fun d x => dict_set (key x) (val x) d) xs [].

Fixpoint dict_get {V} (k : string) (d : list (string * V)) : option V :=
  match d with
  | [] => None
  | (k', v) :: d' => if decide (k = k') then Some v else dict_get k d'
  end.

(** [collections.Counter(columns)]: a dict from element to number of
    occurrences, in the order of first occurrence
    ([self[elem] = self.get(elem, 0) + 1] for each element). *)
Definition Counter (l : list string) : list (string * nat) :=
  fold_left (fun c k => dict_set k (default 0 (dict_get k c) + 1) c) l [].

(** ** Column validation, shared verbatim by both classes *)

(** [for col, count in counter.items(): if count > 1: raise ValueError(...)] *)
Fixpoint validate_items (items : list (string * nat)) : M unit :=
  match items with
  | [] => ret tt
  | (col, count) :: rest =>
      if (1 <? count)%nat
      then raise (ValueError (Expected_unique_column_names col count))
      else validate_items rest
  end.

Definition _validate_columns (columns : list string) : M unit :=
  validate_items (Counter columns).

(** ** The engine's operations

    The engine is an external library ([import cudf as pd]); what follows
    is the behaviour this module relies on, over columns without missing
    cells and operands that share the frame's row labels. *)

(** The elements of [l] at the positions [ps], in the order of [ps]. *)
Definition take {A} (ps : list nat) (l : list A) : list A :=
  omap (fun p => l !! p) ps.

(** The rows of [df] at the positions [ps], in the order of [ps]. *)
Definition take_rows (ps : list nat) (df : pd.DataFrame) : pd.DataFrame :=
  pd.mkDataFrame (take ps (pd.index df))
                 (prod_map id (take ps) <$> pd.data df).

(** [pd.concat(objs, axis=1)]: the keys of the dict become the column
    labels, in dict order.  In the source every column handed over is an
    engine Series that carries its own row labels; [Series] here keeps the
    cells only, so the labels the columns share, those of the frame the
    expressions were evaluated against, are given apart as [labels]. *)
Definition pd_concat (labels : list Z) (objs : list (string * list value))
  : exn + pd.DataFrame :=
  match objs with
  | [] => inl (ValueError No_objects_to_concatenate)
  | _ => inr (pd.mkDataFrame labels objs)
  end.

(** The body of [df.assign]: [data[k] = v] for each item of the keyword
    dict in order; a label that exists keeps its position, a new one goes
    last. *)
Definition assign_items (df : pd.DataFrame)
    (kwargs : list (string * list value)) : pd.DataFrame :=
  pd.mkDataFrame (pd.index df)
    (fold_left (fun d kv => dict_set (fst kv) (snd kv) d) kwargs (pd.data df)).

(** [df.assign] called with the keyword dict [kwargs] unpacked.  Each key
    is bound to a parameter of the method; its first parameter is named
    [self] and already holds the frame, so a key "self" is a second value
    for it: the call raises [TypeError] and the body does not run. *)
Definition pd_assign (df : pd.DataFrame) (kwargs : list (string * list value))
  : exn + pd.DataFrame :=
  if decide ("self" ∈ kwargs.*1)
  then inl (TypeError (Multiple_values_for_argument "self"))
  else inr (assign_items df kwargs).

(** Positions, counted from [i], of the cells of a mask that are [True]. *)
Fixpoint true_positions (i : nat) (mask : list value) : list nat :=
  match mask with
  | [] => []
  | v :: mask' =>
      if decide (v = VBool true) then i :: true_positions (S i) mask'
      else true_positions (S i) mask'
  end.

(** Positions, counted from [i], of the rows labelled [l]. *)
Fixpoint label_positions (i : nat) (l : Z) (labels : list Z) : list nat :=
  match labels with
  | [] => []
  | l' :: labels' =>
      if decide (l = l') then i :: label_positions (S i) l labels'
      else label_positions (S i) l labels'
  end.

(** A non-boolean indexer is a list of row labels: the rows carrying each
    label, in the order of the indexer; a label no row carries is a
    [KeyError]. *)
Fixpoint rows_of_labels (labels : list Z) (keys : list value)
  : exn + list nat :=
  match keys with
  | [] => inr []
  | k :: keys' =>
      match k with
      | VInt l =>
          match label_positions 0 l labels with
          | [] => inl (KeyError k)
          | ps =>
              match rows_of_labels labels keys' with
              | inl e => inl e
              | inr ps' => inr (ps ++ ps')
              end
          end
      | _ => inl (KeyError k)
      end
  end.

(** [df.loc[mask]]: a boolean indexer keeps the rows where it is [True];
    any other indexer selects rows by label. *)
Definition pd_loc (df : pd.DataFrame) (mask : list value)
  : exn + pd.DataFrame :=
  if forallb is_bool mask then
    if decide (length mask = pd.nrows df)
    then inr (take_rows (true_positions 0 mask) df)
    else inl (IndexingError Unalignable_boolean_indexer)
  else
    match rows_of_labels (pd.index df) mask with
    | inl e => inl e
    | inr ps => inr (take_rows ps df)
    end.

(** *** Ordering of cells and rows *)

(** A three-way comparison that is a total order. *)
Class Comparator {A} (cmp : A -> A -> comparison) : Prop := {
  cmp_eq_iff : forall x y, cmp x y = Eq <-> x = y;
  cmp_opp : forall x y, cmp y x = CompOpp (cmp x y);
  cmp_trans : forall x y z c, cmp x y = c -> cmp y z = c -> cmp x z = c
}.

(** Strings are ordered by their characters, left to right. *)
Definition string_compare (s1 s2 : string) : comparison :=
  list_compare Ascii.compare (list_ascii_of_string s1) (list_ascii_of_string s2).

(** Cells of one column are of one type; across types the order is fixed
    only to make the comparison total. *)
Definition value_compare (a b : value) : comparison :=
  match a, b with
  | VBool x, VBool y => Bool.compare x y
  | VInt x, VInt y => Z.compare x y
  | VStr x, VStr y => string_compare x y
  | VBool _, _ => Lt
  | _, VBool _ => Gt
  | VInt _, VStr _ => Lt
  | VStr _, VInt _ => Gt
  end.

(** A cell of a sort key together with the direction of its key. *)
Inductive dvalue : Type :=
| Asc (v : value)
| Desc (v : value).

Definition directed (ascending : bool) (v : value) : dvalue :=
  if ascending then Asc v else Desc v.

Definition dvalue_compare (a b : dvalue) : comparison :=
  match a, b with
  | Asc x, Asc y => value_compare x y
  | Desc x, Desc y => value_compare y x
  | Asc _, Desc _ => Lt
  | Desc _, Asc _ => Gt
  end.

(** The sort key of the row at position [p]: its cells in the key columns,
    each with its direction. *)
Definition row_key (dirs : list bool) (cols : list (list value)) (p : nat)
  : list dvalue :=
  omap id (zip_with (fun a col => directed a <$> col !! p) dirs cols).

Definition row_compare (dirs : list bool) (cols : list (list value))
    (p q : nat) : comparison :=
  list_compare dvalue_compare (row_key dirs cols p) (row_key dirs cols q).

(** Insertion sort, of which the sample engines below are made: [p] goes
    in front of the first position that does not sort strictly before
    it. *)
Fixpoint insert_by (cmp : nat -> nat -> comparison) (p : nat) (l : list nat)
  : list nat :=
  match l with
  | [] => [p]
  | q :: l' =>
      match cmp p q with
      | Gt => q :: insert_by cmp p l'
      | _ => p :: q :: l'
      end
  end.

Definition stable_sort (cmp : nat -> nat -> comparison) (ps : list nat)
  : list nat :=
  foldr (insert_by cmp) [] ps.

(** [ascending] is one flag for every key or one flag per key. *)
Definition directions (n_by : nat) (ascending : bool + list bool)
  : exn + list bool :=
  match ascending with
  | inl b => inr (replicate n_by b)
  | inr l =>
      if decide (length l = n_by) then inr l
      else inl (ValueError (Length_of_ascending (length l) n_by))
  end.

Fixpoint key_columns (by_ : list string) (data : list (string * list value))
  : exn + list (list value) :=
  match by_ with
  | [] => inr []
  | k :: by' =>
      match dict_get k data with
      | None => inl (KeyError (VStr k))
      | Some col =>
          match key_columns by' data with
          | inl e => inl e
          | inr cols => inr (col :: cols)
          end
      end
  end.

(** [df.sort_values(by, ascending=ascending)].  The module passes no
    [kind=], so the rows come in the order of the engine's default sorting
    algorithm: [pd_argsort cmp n] lists the positions [0 .. n-1] as that
    algorithm orders them under the comparison [cmp].  The engine checks
    the number of flags before it looks up the keys. *)
Definition pd_sort_values
    (pd_argsort : (nat -> nat -> comparison) -> nat -> list nat)
    (df : pd.DataFrame) (by_ : list string)
    (ascending : bool + list bool) : exn + pd.DataFrame :=
  match directions (length by_) ascending with
  | inl e => inl e
  | inr dirs =>
      match key_columns by_ (pd.data df) with
      | inl e => inl e
      | inr cols =>
          inr (take_rows (pd_argsort (row_compare dirs cols) (pd.nrows df))
                 df)
      end
  end.

(** ** The two wrappers and the expressions evaluated against them *)

(** [DataFrame]: [self._dataframe], [self.api_version], [self.columns]. *)
Record DataFrame : Type := mkDataFrame {
  _dataframe : pd.DataFrame;
  DataFrame_api_version : string;
  DataFrame_columns : list string
}.

(** [LazyFrame]: [self._df], [self.api_version], [self.columns]. *)
Record LazyFrame : Type := mkLazyFrame {
  _df : pd.DataFrame;
  LazyFrame_api_version : string;
  LazyFrame_columns : list string
}.

(** [self.dataframe] (a property of both classes) *)
Definition DataFrame_dataframe (self : DataFrame) : pd.DataFrame :=
  _dataframe self.
Definition LazyFrame_dataframe (self : LazyFrame) : pd.DataFrame :=
  _df self.

(** Modelled from the spec: the expression objects of the package are not
    part of this module.  An expression is a pure function of a frame that
    fails or yields one or more named Series ([expr.call(df)]). *)
Definition Expr : Type := LazyFrame -> exn + list Series.

(** [col(n)]: the column [n] of the frame, under its own name; a missing
    column is the engine's failure. *)
Definition col (n : string) : Expr :=
  fun df =>
    match dict_get n (pd.data (LazyFrame_dataframe df)) with
    | Some c => inr [mkSeries n c]
    | None => inl (KeyError (VStr n))
    end.

(** ** Helpers of the package that live outside this module *)

(** Modelled from the spec: [flatten_str] takes a mix of bare strings and
    iterables of strings and returns one flat ordered sequence, duplicates
    preserved as given. *)
Definition flatten_str (keys : list (string + list string)) : list string :=
  flat_map (fun k => match k with inl s => [s] | inr l => l end) keys.

Fixpoint evaluate_all (df : LazyFrame) (exprs : list Expr)
  : M (list Series) :=
  match exprs with
  | [] => ret []
  | e :: exprs' =>
      let* s := lift (e df) in
      let* ss := evaluate_all df exprs' in
      ret (s ++ ss)
  end.

Fixpoint evaluate_named (df : LazyFrame) (named_exprs : list (string * Expr))
  : M (list Series) :=
  match named_exprs with
  | [] => ret []
  | (k, e) :: named' =>
      let* s := lift (e df) in
      let* ss := evaluate_named df named' in
      ret (((fun x => mkSeries k (series x)) <$> s) ++ ss)
  end.

(** Modelled from the spec: [evaluate_into_exprs] evaluates each
    expression, positional ones first, to one or more Series, renames the
    keyword-bound ones to their keyword, and returns the ordered list. *)
Definition evaluate_into_exprs (df : LazyFrame) (exprs : list Expr)
    (named_exprs : list (string * Expr)) : M (list Series) :=
  let* positional := evaluate_all df exprs in
  let* named := evaluate_named df named_exprs in
  ret (positional ++ named).

(** Modelled from the spec: [validate_dataframe_comparand] asserts that the
    candidate mask is positionally aligned with the frame (compatible
    length) and returns the validated engine column, or fails. *)
Definition validate_dataframe_comparand (df : LazyFrame) (other : Series)
  : exn + list value :=
  if decide (length (series other) = pd.nrows (LazyFrame_dataframe df))
  then inr (series other)
  else inl (ValueError (Incompatible_lengths (length (series other))
                          (pd.nrows (LazyFrame_dataframe df)))).

(** The engine's [&] on two cells: logical on booleans, bitwise on
    integers; a boolean with an integer gives a boolean (the boolean
    counts as 0 or 1, and the result is whether the bitwise and is not
    0); text has no [&]. *)
Definition value_and (a b : value) : exn + value :=
  match a, b with
  | VBool x, VBool y => inr (VBool (x && y))
  | VInt x, VInt y => inr (VInt (Z.land x y))
  | VBool x, VInt y => inr (VBool (negb (Z.land (Z.b2z x) y =? 0)%Z))
  | VInt x, VBool y => inr (VBool (negb (Z.land x (Z.b2z y) =? 0)%Z))
  | _, _ => inl (TypeError Unsupported_operand)
  end.

Fixpoint column_and (xs ys : list value) : exn + list value :=
  match xs, ys with
  | x :: xs', y :: ys' =>
      match value_and x y with
      | inl e => inl e
      | inr v =>
          match column_and xs' ys' with
          | inl e => inl e
          | inr vs => inr (v :: vs)
          end
      end
  | _, _ => inr []
  end.

Fixpoint reduce_and (acc : Series) (rest : list Series) : exn + Series :=
  match rest with
  | [] => inr acc
  | s :: rest' =>
      match column_and (series acc) (series s) with
      | inl e => inl e
      | inr c => reduce_and (mkSeries (name acc) c) rest'
      end
  end.

(** The backend [polars_api_compat.pandas], of which this module uses the
    namespace and the two group-by classes. *)
Module pandas.

(** [Namespace(api_version=...)] *)
Record Namespace : Type := mkNamespace { api_version : string }.

(** Modelled from the spec: [all_horizontal] ANDs the predicates
    column-wise into one Series (one predicate alone is that predicate;
    there is nothing to reduce when none is given). *)
Definition all_horizontal (plx : Namespace) (predicates : list Expr) : Expr :=
  fun df =>
    match evaluate_all df predicates with
    | (_, inl e) => inl e
    | (_, inr []) => inl (TypeError Reduce_of_empty_iterable)
    | (_, inr (s :: ss)) =>
        match reduce_and s ss with
        | inl e => inl e
        | inr r => inr [r]
        end
    end.

(** Modelled from the spec: the eager group-by object, holding the frame,
    the key list and the version it was built with. *)
Record GroupBy : Type := mkGroupBy {
  GroupBy_df : DataFrame;
  GroupBy_keys : list string;
  GroupBy_api_version : string
}.

(** Modelled from the spec: the deferred group-by object. *)
Record LazyGroupBy : Type := mkLazyGroupBy {
  LazyGroupBy_df : LazyFrame;
  LazyGroupBy_keys : list string;
  LazyGroupBy_api_version : string
}.

End pandas.

(** ** class DataFrame: construction *)

Definition DataFrame__validate_columns (columns : list string) : M unit :=
  _validate_columns columns.

(** [DataFrame(dataframe, api_version=api_version)] *)
Definition DataFrame_init (dataframe : pd.DataFrame) (api_version : string)
  : M DataFrame :=
  let* _ := DataFrame__validate_columns (pd.columns dataframe) in
  ret (mkDataFrame dataframe api_version (pd.columns dataframe)).

(** [((dtypes == "bool") | (dtypes == "boolean")).all()] on the frame's own
    columns; no method of this module calls it. *)
Definition DataFrame__validate_booleanness (self : DataFrame) : M unit :=
  if forallb (fun c => forallb is_bool c.2) (pd.data (DataFrame_dataframe self))
  then ret tt
  else raise (TypeError Any_only_where_all_dtypes_are_bool).

Definition DataFrame__from_dataframe (self : DataFrame) (df : pd.DataFrame)
  : M DataFrame :=
  DataFrame_init df (DataFrame_api_version self).

(** ** class LazyFrame *)

Definition LazyFrame__validate_columns (columns : list string) : M unit :=
  _validate_columns columns.

(** [LazyFrame(dataframe, api_version=api_version)] *)
Definition LazyFrame_init (dataframe : pd.DataFrame) (api_version : string)
  : M LazyFrame :=
  let* _ := LazyFrame__validate_columns (pd.columns dataframe) in
  ret (mkLazyFrame dataframe api_version (pd.columns dataframe)).

(** The same check on a [LazyFrame]; [filter] does not call it. *)
Definition LazyFrame__validate_booleanness (self : LazyFrame) : M unit :=
  if forallb (fun c => forallb is_bool c.2) (pd.data (LazyFrame_dataframe self))
  then ret tt
  else raise (TypeError Any_only_where_all_dtypes_are_bool).

Definition LazyFrame__from_dataframe (self : LazyFrame) (df : pd.DataFrame)
  : M LazyFrame :=
  LazyFrame_init df (LazyFrame_api_version self).

Definition LazyFrame___lazyframe_namespace__ (self : LazyFrame)
  : pandas.Namespace :=
  pandas.mkNamespace (LazyFrame_api_version self).

Definition LazyFrame_group_by (self : LazyFrame)
    (keys : list (string + list string)) : pandas.LazyGroupBy :=
  pandas.mkLazyGroupBy self (flatten_str keys) (LazyFrame_api_version self).

Definition LazyFrame_select (self : LazyFrame) (exprs : list Expr)
    (named_exprs : list (string * Expr)) : M LazyFrame :=
  let* new_series := evaluate_into_exprs self exprs named_exprs in
  let objs := dict_comprehension name series new_series in
  let* df := perform (call_concat objs)
               (pd_concat (pd.index (LazyFrame_dataframe self)) objs) in
  LazyFrame__from_dataframe self df.

(** [xs[0]] *)
Definition item0 {A} (xs : list A) : exn + A :=
  match xs with
  | x :: _ => inr x
  | [] => inl IndexError
  end.

Definition LazyFrame_filter (self : LazyFrame) (predicates : list Expr)
  : M LazyFrame :=
  let plx := LazyFrame___lazyframe_namespace__ self in
  let* out := lift (pandas.all_horizontal plx predicates self) in
  let* mask := lift (item0 out) in
  let* _mask := lift (validate_dataframe_comparand self mask) in
  let* df := perform (call_loc (LazyFrame_dataframe self) _mask)
               (pd_loc (LazyFrame_dataframe self) _mask) in
  LazyFrame__from_dataframe self df.

Definition LazyFrame_with_columns (self : LazyFrame) (exprs : list Expr)
    (named_exprs : list (string * Expr)) : M LazyFrame :=
  let* new_series := evaluate_into_exprs self exprs named_exprs in
  let kwargs := dict_comprehension name series new_series in
  let* df := perform (call_assign (LazyFrame_dataframe self) kwargs)
               (pd_assign (LazyFrame_dataframe self) kwargs) in
  LazyFrame__from_dataframe self df.

(** [descending] is a [bool] ([inl]) or an iterable of [bool] ([inr]);
    [pd_argsort] is the engine's default sorting algorithm. *)
Definition LazyFrame_sort
    (pd_argsort : (nat -> nat -> comparison) -> nat -> list nat)
    (self : LazyFrame)
    (keys : list (string + list string)) (descending : bool + list bool)
  : M LazyFrame :=
  let flat_keys := flatten_str keys in
  let flat_keys :=
    match flat_keys with
    | [] => pd.columns (LazyFrame_dataframe self)
    | _ => flat_keys
    end in
  let df := LazyFrame_dataframe self in
  let ascending : bool + list bool :=
    match descending with
    | inl d => inl (negb d)
    | inr ds => inr (negb <$> ds)
    end in
  let* sorted := perform (call_sort_values df flat_keys ascending)
                   (pd_sort_values pd_argsort df flat_keys ascending) in
  LazyFrame__from_dataframe self sorted.

(** [isinstance(on, str)]: a bare string becomes a one-element list. *)
Definition normalize_on (on : string + list string) : list string :=
  match on with
  | inl s => [s]
  | inr l => l
  end.

(** [(set(a) - set(a_on)).intersection(set(b) - set(b_on))] *)
Definition overlap_of (a a_on b b_on : list string) : gset string :=
  (list_to_set a ∖ list_to_set a_on) ∩ (list_to_set b ∖ list_to_set b_on).

(** [LazyFrame.collect] *)
Definition LazyFrame_collect (self : LazyFrame) : M DataFrame :=
  DataFrame_init (LazyFrame_dataframe self) (LazyFrame_api_version self).

(** ** class DataFrame: methods *)

Definition DataFrame___dataframe_namespace__ (self : DataFrame)
  : pandas.Namespace :=
  pandas.mkNamespace (DataFrame_api_version self).

Definition DataFrame_group_by (self : DataFrame)
    (keys : list (string + list string)) : pandas.GroupBy :=
  pandas.mkGroupBy self (flatten_str keys) (DataFrame_api_version self).

Definition DataFrame_lazy (self : DataFrame) : M LazyFrame :=
  LazyFrame_init (DataFrame_dataframe self) (DataFrame_api_version self).

Definition DataFrame_select (self : DataFrame) (exprs : list Expr)
    (named_exprs : list (string * Expr)) : M DataFrame :=
  let* l := DataFrame_lazy self in
  let* r := LazyFrame_select l exprs named_exprs in
  LazyFrame_collect r.

Definition DataFrame_filter (self : DataFrame) (predicates : list Expr)
  : M DataFrame :=
  let* l := DataFrame_lazy self in
  let* r := LazyFrame_filter l predicates in
  LazyFrame_collect r.

Definition DataFrame_with_columns (self : DataFrame) (exprs : list Expr)
    (named_exprs : list (string * Expr)) : M DataFrame :=
  let* l := DataFrame_lazy self in
  let* r := LazyFrame_with_columns l exprs named_exprs in
  LazyFrame_collect r.

Definition DataFrame_sort
    (pd_argsort : (nat -> nat -> comparison) -> nat -> list nat)
    (self : DataFrame)
    (keys : list (string + list string)) (descending : bool + list bool)
  : M DataFrame :=
  let* l := DataFrame_lazy self in
  let* r := LazyFrame_sort pd_argsort l keys descending in
  LazyFrame_collect r.

(** ** join, over the engine's merge

    What the engine's [merge] returns is not fixed here: the two [join]
    methods are defined for any such function. *)
Section Join.

Variable pd_merge :
  pd.DataFrame -> pd.DataFrame -> list string -> list string -> string ->
  exn + pd.DataFrame.

Definition LazyFrame_join (self other : LazyFrame) (how : string)
    (left_on right_on : string + list string) : M LazyFrame :=
  if bool_decide (how ∉ ["inner"]) then
    raise (ValueError Only_inner_join_supported)
  else
    let left_on := normalize_on left_on in
    let right_on := normalize_on right_on in
    let overlap := overlap_of (LazyFrame_columns self) left_on
                     (LazyFrame_columns other) right_on in
    if bool_decide (overlap ≠ ∅) then
      raise (ValueError (Found_overlapping_columns overlap))
    else
      let* df :=
        perform (call_merge (LazyFrame_dataframe self)
                   (LazyFrame_dataframe other) left_on right_on how)
          (pd_merge (LazyFrame_dataframe self) (LazyFrame_dataframe other)
             left_on right_on how) in
      LazyFrame__from_dataframe self df.

Definition DataFrame_join (self other : DataFrame) (how : string)
    (left_on right_on : string + list string) : M DataFrame :=
  let* l := DataFrame_lazy self in
  let* o := DataFrame_lazy other in
  let* r := LazyFrame_join l o how left_on right_on in
  LazyFrame_collect r.

End Join.

(** ** shape and repr *)

(** The engine's [df.shape]: number of rows, number of columns. *)
Definition pd_shape (df : pd.DataFrame) : nat * nat :=
  (pd.nrows df, length (pd.data df)).

(** [DataFrame.shape] *)
Definition DataFrame_shape (self : DataFrame) : nat * nat :=
  pd_shape (DataFrame_dataframe self).

(** The newline character. *)
Definition nl : string := String "010" EmptyString.

(** A byte that continues a character of a text held as UTF-8. *)
Definition is_continuation (a : ascii) : bool :=
  (128 <=? N_of_ascii a)%N && (N_of_ascii a <? 192)%N.

(** [len(s)]: the number of characters of a text held as UTF-8 bytes. *)
Fixpoint py_len (s : string) : nat :=
  match s with
  | EmptyString => 0
  | String a s' => (if is_continuation a then 0 else 1) + py_len s'
  end.

(** [s * n] *)
Fixpoint str_repeat (s : string) (n : nat) : string :=
  match n with
  | 0 => ""
  | S n' => s +:+ str_repeat s n'
  end.

(** [DataFrame.__repr__] *)
Definition DataFrame___repr__ (self : DataFrame) : string :=
  let header := " Standard DataFrame (api_version="
                +:+ DataFrame_api_version self +:+ ") " in
  let length := py_len header in
  "┌" +:+ str_repeat "─" length +:+ "┐" +:+ nl
  +:+ ("|" +:+ header +:+ "|" +:+ nl)
  +:+ ("| Add `.dataframe` to see native output         |" +:+ nl)
  +:+ "└" +:+ str_repeat "─" length +:+ "┘" +:+ nl.

(** [LazyFrame.__repr__] *)
Definition LazyFrame___repr__ (self : LazyFrame) : string :=
  let header := " Standard DataFrame (api_version="
                +:+ LazyFrame_api_version self +:+ ") " in
  let length := py_len header in
  "┌" +:+ str_repeat "─" length +:+ "┐" +:+ nl
  +:+ ("|" +:+ header +:+ "|" +:+ nl)
  +:+ ("| Add `.dataframe` to see native output         |" +:+ nl)
  +:+ "└" +:+ str_repeat "─" length +:+ "┘" +:+ nl.

(** ** Vocabulary of the statements *)

(** How often [k] occurs in [l]. *)
Definition occurrences (k : string) (l : list string) : nat :=
  count_occ string_dec l k.

(** The distinct elements of [l], in the order of their first occurrence. *)
Definition first_occurrences (l : list string) : list string :=
  fold_left (fun acc k => if decide (k ∈ acc) then acc else acc ++ [k]) l [].

(** The invariant the constructors establish: unique column names, and
    [self.columns] is the list of the wrapped frame's column names. *)
Definition LazyFrame_ok (self : LazyFrame) : Prop :=
  NoDup (pd.columns (_df self)) /\
  LazyFrame_columns self = pd.columns (_df self).

Definition DataFrame_ok (self : DataFrame) : Prop :=
  NoDup (pd.columns (_dataframe self)) /\
  DataFrame_columns self = pd.columns (_dataframe self).

(** [lazy()] and [collect()] seen as plain re-wrappings. *)
Definition to_lazy (self : DataFrame) : LazyFrame :=
  mkLazyFrame (_dataframe self) (DataFrame_api_version self)
    (DataFrame_columns self).

Definition to_eager (self : LazyFrame) : DataFrame :=
  mkDataFrame (_df self) (LazyFrame_api_version self) (LazyFrame_columns self).

(** A three-way comparison of rows that orders them: swapping the rows
    swaps the answer, and not coming after is transitive. *)
Definition is_ordering (cmp : nat -> nat -> comparison) : Prop :=
  (forall p q, cmp q p = CompOpp (cmp p q)) /\
  (forall p q z, cmp p q ≠ Gt -> cmp q z ≠ Gt -> cmp p z ≠ Gt).

(** What is known of the engine's sorting algorithm, whichever it is:
    given a comparison that orders the rows, it lists every row once, and
    no row before one that compares strictly smaller. *)
Definition engine_sorts
    (pd_argsort : (nat -> nat -> comparison) -> nat -> list nat) : Prop :=
  forall cmp n,
    is_ordering cmp ->
    pd_argsort cmp n ≡ₚ seq 0 n /\
    forall i j p q,
      i < j ->
      pd_argsort cmp n !! i = Some p ->
      pd_argsort cmp n !! j = Some q ->
      cmp p q ≠ Gt.






(** What [sort] hands to the engine as [ascending]. *)
Definition ascending_of (descending : bool + list bool) : bool + list bool :=
  match descending with
  | inl d => inl (negb d)
  | inr ds => inr (negb <$> ds)
  end.

(** The keys [sort] hands to the engine. *)
Definition sort_keys_of (self : LazyFrame) (keys : list (string + list string))
  : list string :=
  match flatten_str keys with
  | [] => pd.columns (LazyFrame_dataframe self)
  | _ => flatten_str keys
  end.


(** ** Sample engines and frames *)

(** An engine whose default sort keeps rows with equal keys in their
    original order. *)
Definition stable_argsort (cmp : nat -> nat -> comparison) (n : nat)
  : list nat :=
  stable_sort cmp (seq 0 n).


Definition frame_ab : pd.DataFrame :=
  pd.mkDataFrame [0; 1; 2]%Z
    [("a", [VInt 1; VInt 2; VInt 1]); ("b", [VInt 10; VInt 20; VInt 30])].

Definition frame_aba : pd.DataFrame :=
  pd.mkDataFrame [0]%Z [("a", [VInt 1]); ("b", [VInt 2]); ("a", [VInt 3])].

Definition frame_bc : pd.DataFrame :=
  pd.mkDataFrame [0; 1]%Z
    [("b", [VInt 10; VInt 20]); ("c", [VStr "x"; VStr "y"])].

Definition lazy_ab : LazyFrame := mkLazyFrame frame_ab "v1" ["a"; "b"].
Definition lazy_bc : LazyFrame := mkLazyFrame frame_bc "v1" ["b"; "c"].
Definition eager_ab : DataFrame := mkDataFrame frame_ab "v1" ["a"; "b"].
Definition eager_bc : DataFrame := mkDataFrame frame_bc "v1" ["b"; "c"].

(** An engine merge that keeps the left frame: enough to run [join]. *)
Definition merge_left (left right : pd.DataFrame) (left_on right_on : list string)
    (how : string) : exn + pd.DataFrame := inr left.

(** Two frames that share the name "x": a plain column on the left, the
    join key on the right. *)
Definition frame_id_x : pd.DataFrame :=
  pd.mkDataFrame [0; 1]%Z
    [("id", [VInt 1; VInt 2]); ("x", [VStr "p"; VStr "q"])].

Definition frame_x_y : pd.DataFrame :=
  pd.mkDataFrame [0; 1]%Z
    [("x", [VInt 1; VInt 2]); ("y", [VBool true; VBool false])].



Definition lazy_id_x : LazyFrame := mkLazyFrame frame_id_x "v1" ["id"; "x"].
Definition lazy_x_y : LazyFrame := mkLazyFrame frame_x_y "v1" ["x"; "y"].

(** * Properties *)

(** ** The effect monad *)

Lemma bind_ret_l {A B} (x : A) (k : A -> M B) : bind (ret x) k = k x.
Proof. unfold bind, ret. destruct (k x) as [t r]. reflexivity. Qed.

Lemma bind_raise {A B} (e : exn) (k : A -> M B) : bind (raise e) k = raise e.
Proof. reflexivity. Qed.

Lemma bind_lift_inr {A B} (x : A) (k : A -> M B) : bind (lift (inr x)) k = k x.
Proof. apply bind_ret_l. Qed.

Lemma bind_lift_inl {A B} (e : exn) (k : A -> M B) :
  bind (lift (inl e)) k = raise e.
Proof. reflexivity. Qed.

Lemma bind_perform_inr {A B} (c : call) (x : A) (k : A -> M B) :
  bind (perform c (inr x)) k = (c :: trace (k x), outcome (k x)).
Proof. unfold bind, perform. destruct (k x) as [t r]. reflexivity. Qed.

Lemma bind_perform_inl {A B} (c : call) (e : exn) (k : A -> M B) :
  bind (perform c (inl e)) k = ([c], inl e).
Proof. reflexivity. Qed.

(** ** Python dicts *)

Section Dict.
Context {V : Type}.
Implicit Types (d : list (string * V)) (k : string) (v : V).

Lemma dict_get_None k d : dict_get k d = None <-> k ∉ d.*1.
Proof.
  induction d as [|[k' v'] d IH]; simpl.
  - split; [intros _; apply not_elem_of_nil | done].
  - case_decide as Hk; subst.
    + split; [done | intros Hk; exfalso; apply Hk; left].
    + rewrite IH, not_elem_of_cons. tauto.
Qed.


Lemma dict_elem_get k v d : NoDup (d.*1) -> (k, v) ∈ d -> dict_get k d = Some v.
Proof.
  induction d as [|[k' v'] d IH]; simpl; intros Hnd Hin.
  - by apply elem_of_nil in Hin.
  - apply NoDup_cons in Hnd as [Hk' Hnd].
    apply elem_of_cons in Hin as [[= -> ->]|Hin].
    + by rewrite decide_True.
    + rewrite decide_False; [auto|].
      intros ->. apply Hk'. apply (list_elem_of_fmap_2 fst) in Hin. exact Hin.
Qed.

Lemma dict_set_keys k v d :
  (dict_set k v d).*1
  = if decide (k ∈ d.*1) then d.*1 else d.*1 ++ [k].
Proof.
  induction d as [|[k' v'] d IH].
  - destruct (decide (k ∈ ([] : list (string * V)).*1)) as [Hin|_]; [|done].
    by apply elem_of_nil in Hin.
  - cbn [dict_set]. destruct (decide (k = k')) as [->|Hne].
    + rewrite decide_True by (rewrite fmap_cons; left). done.
    + rewrite !fmap_cons, IH. cbn [fst].
      destruct (decide (k ∈ d.*1)) as [Hin|Hnin].
      * rewrite decide_True by (by right). done.
      * rewrite decide_False; [done|].
        rewrite not_elem_of_cons. done.
Qed.

Lemma dict_set_NoDup k v d :
  NoDup (d.*1) -> NoDup (dict_set k v d).*1.
Proof.
  intros Hnd. rewrite dict_set_keys. case_decide as Hk; [done|].
  apply NoDup_app. split; [done|]. split; [|apply NoDup_singleton].
  intros x Hx ->%list_elem_of_singleton. done.
Qed.

Lemma dict_get_set k k' v d :
  dict_get k (dict_set k' v d)
  = if decide (k = k') then Some v else dict_get k d.
Proof.
  induction d as [|[k0 v0] d IH]; simpl.
  - done.
  - destruct (decide (k' = k0)) as [->|Hne]; simpl.
    + repeat case_decide; congruence.
    + rewrite IH. repeat case_decide; congruence.
Qed.

Lemma dict_fold_NoDup {X} (key : X -> string) (val : X -> V) xs d :
  NoDup (d.*1) ->
  NoDup (fold_left (fun d x => dict_set (key x) (val x) d) xs d).*1.
Proof.
  revert d. induction xs as [|x xs IH]; simpl; intros d Hnd; [done|].
  apply IH, dict_set_NoDup, Hnd.
Qed.

Lemma dict_comprehension_NoDup {X} (key : X -> string) (val : X -> V) xs :
  NoDup (dict_comprehension key val xs).*1.
Proof. apply dict_fold_NoDup. simpl. apply NoDup_nil_2. Qed.

End Dict.

Lemma dict_fold_elem_of {X V} (key : X -> string) (val : X -> V) xs
    (d : list (string * V)) n :
  n ∈ (fold_left (fun d x => dict_set (key x) (val x) d) xs d).*1
  <-> n ∈ key <$> xs \/ n ∈ d.*1.
Proof.
  revert d. induction xs as [|x xs IH]; intros d; cbn [fold_left].
  - rewrite fmap_nil, elem_of_nil. tauto.
  - rewrite IH, dict_set_keys, fmap_cons, elem_of_cons.
    destruct (decide (key x ∈ d.*1)) as [Hin|Hnin].
    + split; [tauto|]. intros [[->|?]|?]; auto.
    + rewrite elem_of_app, list_elem_of_singleton.
      split; [intros [?|[?| ->]] | intros [[->|?]|?]]; auto.
Qed.

(** ** [Counter] and the column validation *)

Lemma Counter_fold_get l c k :
  default 0 (dict_get k
    (fold_left (fun c k => dict_set k (default 0 (dict_get k c) + 1) c) l c))
  = occurrences k l + default 0 (dict_get k c).
Proof.
  unfold occurrences.
  revert c. induction l as [|a l IH]; intros c; [done|].
  cbn [fold_left]. rewrite IH, dict_get_set. simpl.
  destruct (string_dec a k) as [->|Hne].
  - rewrite decide_True by done. simpl. lia.
  - rewrite decide_False by done. done.
Qed.

Lemma Counter_fold_keys l (c : list (string * nat)) k :
  k ∈ (fold_left (fun c k => dict_set k (default 0 (dict_get k c) + 1) c) l c).*1
  <-> k ∈ l \/ k ∈ c.*1.
Proof.
  revert c. induction l as [|a l IH]; intros c; cbn [fold_left].
  - rewrite elem_of_nil. tauto.
  - rewrite IH, dict_set_keys, elem_of_cons.
    destruct (decide (a ∈ c.*1)) as [Hin|Hnin].
    + split; [tauto|]. intros [[->|?]|?]; auto.
    + rewrite elem_of_app, list_elem_of_singleton.
      split; [intros [?|[?| ->]] | intros [[->|?]|?]]; auto.
Qed.

Lemma Counter_NoDup l : NoDup (Counter l).*1.
Proof.
  unfold Counter. generalize (NoDup_nil_2 (A := string)).
  change (@nil string) with ([] : list (string * nat)).*1.
  generalize ([] : list (string * nat)).
  induction l as [|a l IH]; intros c Hc; [done|].
  cbn [fold_left]. apply IH, dict_set_NoDup, Hc.
Qed.

Lemma Counter_elem l k n :
  (k, n) ∈ Counter l -> n = occurrences k l /\ k ∈ l.
Proof.
  intros Hin. split.
  - apply dict_elem_get in Hin; [|apply Counter_NoDup].
    pose proof (Counter_fold_get l [] k) as Hget.
    unfold Counter in Hin. rewrite Hin in Hget. simpl in Hget. lia.
  - apply (list_elem_of_fmap_2 fst) in Hin.
    apply Counter_fold_keys in Hin as [?|Hin]; [done|].
    by apply elem_of_nil in Hin.
Qed.

Lemma validate_items_ok items :
  Forall (fun kv => kv.2 <= 1) items -> validate_items items = ret tt.
Proof.
  induction 1 as [|[k n] items Hn _ IH]; [done|].
  simpl in *. destruct (Nat.ltb_spec 1 n); [lia | done].
Qed.

Lemma validate_items_raise items :
  Exists (fun kv => 1 < kv.2) items ->
  exists col count,
    (col, count) ∈ items /\ 1 < count /\
    validate_items items
    = raise (ValueError (Expected_unique_column_names col count)).
Proof.
  induction items as [|[k n] items IH]; intros Hex.
  - by apply Exists_nil in Hex.
  - simpl. destruct (Nat.ltb_spec 1 n) as [Hlt|Hle].
    + exists k, n. split; [left | done].
    + apply Exists_cons in Hex as [Hhd|Htl]; [simpl in Hhd; lia|].
      destruct (IH Htl) as (col & count & Hin & Hc & Heq).
      exists col, count. split; [by right | done].
Qed.

Lemma _validate_columns_unique columns :
  NoDup columns -> _validate_columns columns = ret tt.
Proof.
  intros Hnd. apply validate_items_ok, Forall_forall. intros [k n] Hin.
  apply Counter_elem in Hin as [-> _]. simpl.
  apply NoDup_ListNoDup in Hnd.
  apply (proj1 (NoDup_count_occ string_dec columns) Hnd).
Qed.

Lemma _validate_columns_duplicate columns :
  ~ NoDup columns ->
  exists col count,
    col ∈ columns /\ count = occurrences col columns /\ 1 < count /\
    _validate_columns columns
    = raise (ValueError (Expected_unique_column_names col count)).
Proof.
  intros Hdup.
  destruct (decide (Forall (fun kv : string * nat => kv.2 <= 1) (Counter columns)))
    as [Hall|Hex].
  - exfalso. apply Hdup. apply NoDup_ListNoDup.
    apply (NoDup_count_occ string_dec). intros x.
    destruct (decide (x ∈ columns)) as [Hin|Hnin].
    + assert (x ∈ (Counter columns).*1) as Hk
        by (apply Counter_fold_keys; by left).
      apply list_elem_of_fmap in Hk as ([k n] & -> & Hkn).
      rewrite Forall_forall in Hall. specialize (Hall _ Hkn).
      apply Counter_elem in Hkn as [-> _]. exact Hall.
    + rewrite (proj1 (count_occ_not_In string_dec columns x)); [lia|].
      by rewrite <- list_elem_of_In.
  - apply not_Forall_Exists in Hex; [|apply _].
    assert (Exists (fun kv : string * nat => 1 < kv.2) (Counter columns)) as Hex'.
    { eapply Exists_impl; [exact Hex|]. intros kv Hkv. simpl in Hkv. lia. }
    destruct (validate_items_raise _ Hex') as (col & count & Hin & Hc & Heq).
    apply Counter_elem in Hin as [-> Hin]. eauto 10.
Qed.

(** ** Construction *)

Lemma LazyFrame_init_unique dataframe api_version :
  NoDup (pd.columns dataframe) ->
  LazyFrame_init dataframe api_version
  = ret (mkLazyFrame dataframe api_version (pd.columns dataframe)).
Proof.
  intros Hnd. unfold LazyFrame_init, LazyFrame__validate_columns.
  rewrite (_validate_columns_unique _ Hnd). reflexivity.
Qed.

Lemma DataFrame_init_unique dataframe api_version :
  NoDup (pd.columns dataframe) ->
  DataFrame_init dataframe api_version
  = ret (mkDataFrame dataframe api_version (pd.columns dataframe)).
Proof.
  intros Hnd. unfold DataFrame_init, DataFrame__validate_columns.
  rewrite (_validate_columns_unique _ Hnd). reflexivity.
Qed.

Lemma LazyFrame_init_inv dataframe api_version t r :
  LazyFrame_init dataframe api_version = (t, inr r) ->
  t = [] /\ NoDup (pd.columns dataframe) /\
  r = mkLazyFrame dataframe api_version (pd.columns dataframe).
Proof.
  intros Hinit. destruct (decide (NoDup (pd.columns dataframe))) as [Hnd|Hdup].
  - rewrite (LazyFrame_init_unique _ _ Hnd) in Hinit.
    injection Hinit as <- <-. done.
  - destruct (_validate_columns_duplicate _ Hdup) as (c & n & _ & _ & _ & Heq).
    unfold LazyFrame_init, LazyFrame__validate_columns in Hinit.
    rewrite Heq in Hinit. discriminate.
Qed.

Lemma LazyFrame_init_ok dataframe api_version t r :
  LazyFrame_init dataframe api_version = (t, inr r) -> LazyFrame_ok r.
Proof. intros (_ & Hnd & ->)%LazyFrame_init_inv. done. Qed.

Lemma DataFrame_lazy_ok (self : DataFrame) :
  DataFrame_ok self -> DataFrame_lazy self = ret (to_lazy self).
Proof.
  intros [Hnd Hcols]. unfold DataFrame_lazy, DataFrame_dataframe.
  rewrite (LazyFrame_init_unique _ _ Hnd). unfold to_lazy. by rewrite Hcols.
Qed.

Lemma LazyFrame_collect_ok (self : LazyFrame) :
  LazyFrame_ok self -> LazyFrame_collect self = ret (to_eager self).
Proof.
  intros [Hnd Hcols]. unfold LazyFrame_collect, LazyFrame_dataframe.
  rewrite (DataFrame_init_unique _ _ Hnd). unfold to_eager. by rewrite Hcols.
Qed.

Lemma bind_inr_inv {A B} (m : M A) (k : A -> M B) t r :
  bind m k = (t, inr r) ->
  exists t1 x t2, m = (t1, inr x) /\ k x = (t2, inr r) /\ t = t1 ++ t2.
Proof.
  destruct m as [t1 [e|x]]; simpl; [discriminate|].
  destruct (k x) as [t2 r2] eqn:Hk. intros [= <- ->]. eauto 10.
Qed.

Lemma bind_ext_inr {A B} (m : M A) (k k' : A -> M B) :
  (forall t x, m = (t, inr x) -> k x = k' x) -> bind m k = bind m k'.
Proof.
  destruct m as [t [e|x]]; simpl; [done|]. intros Hk. by rewrite (Hk t x).
Qed.

(** Peel the binds of a successful computation down to its last step. *)
Ltac bind_inv H :=
  repeat match type of H with
         | bind _ _ = (_, inr _) =>
             let t1 := fresh "t" in let x := fresh "x" in
             let t2 := fresh "t" in let H1 := fresh "Hstep" in
             apply bind_inr_inv in H as (t1 & x & t2 & H1 & H & ->)
         end.

Lemma LazyFrame_select_ok self exprs named_exprs t r :
  LazyFrame_select self exprs named_exprs = (t, inr r) -> LazyFrame_ok r.
Proof.
  unfold LazyFrame_select, LazyFrame__from_dataframe. intros H. bind_inv H.
  eapply LazyFrame_init_ok, H.
Qed.

Lemma LazyFrame_filter_ok self predicates t r :
  LazyFrame_filter self predicates = (t, inr r) -> LazyFrame_ok r.
Proof.
  unfold LazyFrame_filter, LazyFrame__from_dataframe. intros H. bind_inv H.
  eapply LazyFrame_init_ok, H.
Qed.

Lemma LazyFrame_with_columns_ok self exprs named_exprs t r :
  LazyFrame_with_columns self exprs named_exprs = (t, inr r) -> LazyFrame_ok r.
Proof.
  unfold LazyFrame_with_columns, LazyFrame__from_dataframe. intros H.
  bind_inv H. eapply LazyFrame_init_ok, H.
Qed.

Lemma LazyFrame_sort_ok pd_argsort self keys descending t r :
  LazyFrame_sort pd_argsort self keys descending = (t, inr r) ->
  LazyFrame_ok r.
Proof.
  unfold LazyFrame_sort, LazyFrame__from_dataframe. intros H. bind_inv H.
  eapply LazyFrame_init_ok, H.
Qed.

Lemma LazyFrame_join_ok pd_merge self other how left_on right_on t r :
  LazyFrame_join pd_merge self other how left_on right_on = (t, inr r) ->
  LazyFrame_ok r.
Proof.
  unfold LazyFrame_join, LazyFrame__from_dataframe. intros H.
  repeat case_bool_decide; try discriminate. bind_inv H.
  eapply LazyFrame_init_ok, H.
Qed.

Lemma NoDup_ab : NoDup ["a"; "b"].
Proof. apply (bool_decide_unpack _). vm_compute. exact I. Qed.

Lemma NoDup_bc : NoDup ["b"; "c"].
Proof. apply (bool_decide_unpack _). vm_compute. exact I. Qed.

Lemma not_NoDup_aba : ~ NoDup ["a"; "b"; "a"].
Proof. apply (bool_decide_unpack _). vm_compute. exact I. Qed.

Lemma lazy_ab_ok : LazyFrame_ok lazy_ab.
Proof. split; [exact NoDup_ab | reflexivity]. Qed.

Lemma frame_ab_aligned : pd.aligned frame_ab.
Proof. repeat constructor. Qed.

Lemma lazy_bc_ok : LazyFrame_ok lazy_bc.
Proof. split; [exact NoDup_bc | reflexivity]. Qed.

Lemma eager_ab_ok : DataFrame_ok eager_ab.
Proof. split; [exact NoDup_ab | reflexivity]. Qed.

Lemma eager_bc_ok : DataFrame_ok eager_bc.
Proof. split; [exact NoDup_bc | reflexivity]. Qed.

(** ** C6: construction validates the column names *)

(** C6.  Constructing a [DataFrame] or a [LazyFrame] over an engine frame
    whose column names are all distinct succeeds and wraps that frame;
    when some name occurs more than once, both constructors raise the
    [ValueError] "Expected unique column names, got <col> <count> time(s)",
    where <col> is a column name of the frame that is repeated and <count>
    is the number of times it occurs. *)
Theorem C6_construction_checks_column_names
    (dataframe : pd.DataFrame) (api_version : string) :
  (NoDup (pd.columns dataframe) ->
     DataFrame_init dataframe api_version
     = ret (mkDataFrame dataframe api_version (pd.columns dataframe)) /\
     LazyFrame_init dataframe api_version
     = ret (mkLazyFrame dataframe api_version (pd.columns dataframe))) /\
  (~ NoDup (pd.columns dataframe) ->
     exists col count,
       col ∈ pd.columns dataframe /\
       count = occurrences col (pd.columns dataframe) /\
       1 < count /\
       DataFrame_init dataframe api_version
       = raise (ValueError (Expected_unique_column_names col count)) /\
       LazyFrame_init dataframe api_version
       = raise (ValueError (Expected_unique_column_names col count)) /\
       render (Expected_unique_column_names col count)
       = Some ("Expected unique column names, got " +:+ col +:+ " "
                 +:+ pretty count +:+ " time(s)")).
Proof.
  split.
  - intros Hnd. split.
    + by apply DataFrame_init_unique.
    + by apply LazyFrame_init_unique.
  - intros Hdup.
    destruct (_validate_columns_duplicate _ Hdup)
      as (col & count & Hin & Hcount & Hlt & Heq).
    exists col, count. repeat split; try done.
    + unfold DataFrame_init, DataFrame__validate_columns. by rewrite Heq.
    + unfold LazyFrame_init, LazyFrame__validate_columns. by rewrite Heq.
Qed.

Lemma C6_construction_checks_column_names_witness :
  (DataFrame_init frame_ab "v1" = ret eager_ab /\
   LazyFrame_init frame_ab "v1" = ret lazy_ab) /\
  (exists col count,
     col ∈ pd.columns frame_aba /\
     count = occurrences col (pd.columns frame_aba) /\
     1 < count /\
     DataFrame_init frame_aba "v1"
     = raise (ValueError (Expected_unique_column_names col count)) /\
     LazyFrame_init frame_aba "v1"
     = raise (ValueError (Expected_unique_column_names col count)) /\
     render (Expected_unique_column_names col count)
     = Some ("Expected unique column names, got " +:+ col +:+ " "
               +:+ pretty count +:+ " time(s)")).
Proof.
  split.
  - exact (proj1 (C6_construction_checks_column_names frame_ab "v1") NoDup_ab).
  - exact (proj2 (C6_construction_checks_column_names frame_aba "v1")
             not_NoDup_aba).
Defined.

Example construction_duplicate_example :
  LazyFrame_init frame_aba "v1"
  = raise (ValueError (Expected_unique_column_names "a" 2)) /\
  render (Expected_unique_column_names "a" 2)
  = Some "Expected unique column names, got a 2 time(s)".
Proof. split; vm_compute; reflexivity. Qed.

(** ** C9: collect *)

(** C9.  For a [LazyFrame] as its constructor builds it, [collect()]
    performs no engine call and returns a [DataFrame] over the very same
    engine frame (same row labels, same columns, same cells), with the
    same version and the same column list. *)
Theorem C9_collect_is_identity_wrap (self : LazyFrame) :
  LazyFrame_ok self ->
  exists d : DataFrame,
    LazyFrame_collect self = ([], inr d) /\
    DataFrame_dataframe d = LazyFrame_dataframe self /\
    DataFrame_api_version d = LazyFrame_api_version self /\
    DataFrame_columns d = LazyFrame_columns self.
Proof.
  intros Hok. exists (to_eager self). split; [|done].
  by apply LazyFrame_collect_ok.
Qed.

Lemma C9_collect_is_identity_wrap_witness :
  exists d : DataFrame,
    LazyFrame_collect lazy_ab = ([], inr d) /\
    DataFrame_dataframe d = LazyFrame_dataframe lazy_ab /\
    DataFrame_api_version d = LazyFrame_api_version lazy_ab /\
    DataFrame_columns d = LazyFrame_columns lazy_ab.
Proof. exact (C9_collect_is_identity_wrap lazy_ab lazy_ab_ok). Defined.

(** ** C10: namespace and group-by come from the pandas backend *)

Lemma flatten_str_app keys1 keys2 :
  flatten_str (keys1 ++ keys2) = flatten_str keys1 ++ flatten_str keys2.
Proof. unfold flatten_str. apply flat_map_app. Qed.

Lemma flatten_str_bare (names : list string) :
  flatten_str (inl <$> names) = names.
Proof.
  unfold flatten_str. induction names as [|n names IH]; simpl; [done|].
  by f_equal.
Qed.

(** C10.  Whatever the version string, the namespace of a [DataFrame] and
    of a [LazyFrame] is the pandas backend's [Namespace] built with that
    version, and [group_by] returns the pandas backend's [GroupBy]
    (respectively [LazyGroupBy]) holding the frame itself, the flattened
    key list (bare names and lists of names, in the order given,
    duplicates kept) and the version. *)
Theorem C10_namespace_and_group_by_use_pandas_backend
    (d : DataFrame) (l : LazyFrame) (keys : list (string + list string)) :
  DataFrame___dataframe_namespace__ d
  = pandas.mkNamespace (DataFrame_api_version d) /\
  LazyFrame___lazyframe_namespace__ l
  = pandas.mkNamespace (LazyFrame_api_version l) /\
  DataFrame_group_by d keys
  = pandas.mkGroupBy d (flatten_str keys) (DataFrame_api_version d) /\
  LazyFrame_group_by l keys
  = pandas.mkLazyGroupBy l (flatten_str keys) (LazyFrame_api_version l) /\
  (forall names : list string,
     pandas.GroupBy_keys (DataFrame_group_by d (inl <$> names)) = names /\
     pandas.LazyGroupBy_keys (LazyFrame_group_by l [inr names]) = names).
Proof.
  repeat split.
  - simpl. apply flatten_str_bare.
  - simpl. apply app_nil_r.
Qed.

(** ** C3 and C4: join *)

Lemma overlap_of_spec (a a_on b b_on : list string) (n : string) :
  n ∈ overlap_of a a_on b b_on
  <-> (n ∈ a /\ n ∉ a_on) /\ (n ∈ b /\ n ∉ b_on).
Proof.
  unfold overlap_of.
  rewrite elem_of_intersection, !elem_of_difference, !elem_of_list_to_set.
  done.
Qed.

Lemma not_inner_spec (how : string) :
  how ≠ "inner" <-> how ∉ ["inner"].
Proof. by rewrite list_elem_of_singleton. Qed.

(** C3.  Whatever the engine's merge, whatever the two frames and the keys:
    when [how] is not "inner", [join] raises the [ValueError]
    "Only inner join supported for now, others coming soon" with no engine
    call performed (the log is empty) and without looking at the columns
    or the keys.  The eager [join] does the same on frames as the
    constructor builds them. *)
Theorem C3_join_rejects_other_than_inner
    (pd_merge : pd.DataFrame -> pd.DataFrame -> list string -> list string ->
                string -> exn + pd.DataFrame)
    (how : string) (left_on right_on : string + list string) :
  how ≠ "inner" ->
  (forall a b : LazyFrame,
     LazyFrame_join pd_merge a b how left_on right_on
     = ([], inl (ValueError Only_inner_join_supported))) /\
  (forall a b : DataFrame,
     DataFrame_ok a -> DataFrame_ok b ->
     DataFrame_join pd_merge a b how left_on right_on
     = ([], inl (ValueError Only_inner_join_supported))) /\
  render Only_inner_join_supported
  = Some "Only inner join supported for now, others coming soon".
Proof.
  intros Hhow%not_inner_spec.
  assert (forall a b : LazyFrame,
            LazyFrame_join pd_merge a b how left_on right_on
            = ([], inl (ValueError Only_inner_join_supported))) as Hlazy.
  { intros a b. unfold LazyFrame_join. by rewrite bool_decide_eq_true_2. }
  split; [exact Hlazy|]. split; [|done].
  intros a b Ha Hb. unfold DataFrame_join.
  rewrite (DataFrame_lazy_ok _ Ha), bind_ret_l.
  rewrite (DataFrame_lazy_ok _ Hb), bind_ret_l.
  by rewrite Hlazy.
Qed.

Lemma left_is_not_inner : "left" ≠ "inner".
Proof. discriminate. Qed.

Lemma C3_join_rejects_other_than_inner_witness :
  LazyFrame_join merge_left lazy_ab lazy_bc "left" (inl "a") (inl "c")
  = ([], inl (ValueError Only_inner_join_supported)) /\
  DataFrame_join merge_left eager_ab eager_bc "left" (inl "a") (inl "c")
  = ([], inl (ValueError Only_inner_join_supported)).
Proof.
  pose proof (C3_join_rejects_other_than_inner merge_left "left"
                (inl "a") (inl "c") left_is_not_inner) as (Hl & He & _).
  split; [apply Hl | apply He; [exact eager_ab_ok | exact eager_bc_ok]].
Defined.

(** C4.  For [how = "inner"], with bare-string keys read as one-element
    lists: [overlap] is the set of names that are columns of both frames
    and keys of neither side.  When it is not empty, [join] raises the
    [ValueError] "Found overlapping columns in join: ..." carrying exactly
    that set, and the log of engine calls is empty: the merge has not been
    run.  When it is empty, the one engine call is the merge of the two
    wrapped frames with these keys, and the result is what the constructor
    makes of the merged frame (or the merge's own failure). *)
Theorem C4_inner_join_checks_overlap_first
    (pd_merge : pd.DataFrame -> pd.DataFrame -> list string -> list string ->
                string -> exn + pd.DataFrame)
    (a b : LazyFrame) (left_on right_on : string + list string) :
  let lo := normalize_on left_on in
  let ro := normalize_on right_on in
  let overlap := overlap_of (LazyFrame_columns a) lo (LazyFrame_columns b) ro in
  (forall s : string, normalize_on (inl s) = [s]) /\
  (forall n : string,
     n ∈ overlap <->
     (n ∈ LazyFrame_columns a /\ n ∉ lo) /\
     (n ∈ LazyFrame_columns b /\ n ∉ ro)) /\
  (overlap ≠ ∅ ->
     LazyFrame_join pd_merge a b "inner" left_on right_on
     = ([], inl (ValueError (Found_overlapping_columns overlap)))) /\
  (overlap = ∅ ->
     trace (LazyFrame_join pd_merge a b "inner" left_on right_on)
     = [call_merge (LazyFrame_dataframe a) (LazyFrame_dataframe b)
          lo ro "inner"] /\
     outcome (LazyFrame_join pd_merge a b "inner" left_on right_on)
     = match pd_merge (LazyFrame_dataframe a) (LazyFrame_dataframe b)
               lo ro "inner" with
       | inl e => inl e
       | inr df => outcome (LazyFrame__from_dataframe a df)
       end).
Proof.
  intros lo ro overlap. split; [done|]. split; [apply overlap_of_spec|].
  assert (bool_decide ("inner" ∉ ["inner"]) = false) as Hinner.
  { apply bool_decide_eq_false_2. intros Hn. apply Hn. left. }
  split; intros Hov; unfold LazyFrame_join; rewrite Hinner;
    fold lo ro overlap.
  - by rewrite bool_decide_eq_true_2.
  - rewrite bool_decide_eq_false_2 by (intros Hne; by apply Hne).
    destruct (pd_merge _ _ lo ro "inner") as [e|df] eqn:Hmerge; [done|].
    unfold perform, bind.
    destruct (LazyFrame__from_dataframe a df) as [t r] eqn:Hwrap.
    assert (t = []) as ->.
    { destruct r as [e|r]; [|by apply LazyFrame_init_inv in Hwrap as [-> _]].
      unfold LazyFrame__from_dataframe, LazyFrame_init in Hwrap.
      destruct (decide (NoDup (pd.columns df))) as [Hnd|Hdup].
      - unfold LazyFrame__validate_columns in Hwrap.
        rewrite (_validate_columns_unique _ Hnd) in Hwrap. discriminate.
      - destruct (_validate_columns_duplicate _ Hdup)
          as (c & n & _ & _ & _ & Heq).
        unfold LazyFrame__validate_columns in Hwrap. rewrite Heq in Hwrap.
        by injection Hwrap as <- _. }
    done.
Qed.

Lemma overlap_ab_bc_on_a_c :
  overlap_of ["a"; "b"] ["a"] ["b"; "c"] ["c"] ≠ ∅.
Proof. apply (bool_decide_unpack _). vm_compute. exact I. Qed.

Lemma overlap_ab_bc_on_b_b :
  overlap_of ["a"; "b"] ["b"] ["b"; "c"] ["b"] = ∅.
Proof. apply (bool_decide_unpack _). vm_compute. exact I. Qed.

Lemma C4_inner_join_checks_overlap_first_witness :
  LazyFrame_join merge_left lazy_ab lazy_bc "inner" (inl "a") (inl "c")
  = ([], inl (ValueError (Found_overlapping_columns
                            (overlap_of ["a"; "b"] ["a"] ["b"; "c"] ["c"])))) /\
  trace (LazyFrame_join merge_left lazy_ab lazy_bc "inner" (inl "b") (inr ["b"]))
  = [call_merge frame_ab frame_bc ["b"] ["b"] "inner"].
Proof.
  split.
  - exact (proj1 (proj2 (proj2
      (C4_inner_join_checks_overlap_first merge_left lazy_ab lazy_bc
         (inl "a") (inl "c")))) overlap_ab_bc_on_a_c).
  - exact (proj1 (proj2 (proj2 (proj2
      (C4_inner_join_checks_overlap_first merge_left lazy_ab lazy_bc
         (inl "b") (inr ["b"])))) overlap_ab_bc_on_b_b)).
Defined.

(** ** C2: the eager operations run on the lazy path *)

Lemma via_lazy_ok (self : DataFrame) (op : LazyFrame -> M LazyFrame) :
  DataFrame_ok self ->
  (forall t r, op (to_lazy self) = (t, inr r) -> LazyFrame_ok r) ->
  (let* l := DataFrame_lazy self in
   let* r := op l in
   LazyFrame_collect r)
  = (let* r := op (to_lazy self) in ret (to_eager r)).
Proof.
  intros Hok Hop. rewrite (DataFrame_lazy_ok _ Hok), bind_ret_l.
  apply bind_ext_inr. intros t r Hr. apply LazyFrame_collect_ok. eauto.
Qed.

(** C2.  Each of [select], [filter], [with_columns], [sort] and [join] of
    a [DataFrame] is [self.lazy()], then the [LazyFrame] method of the same
    name with the same arguments, then [collect()].  On frames as the
    constructor builds them, [lazy()] and [collect()] only re-wrap: the
    engine calls, the failure or the resulting engine frame are exactly
    those of the [LazyFrame] method. *)
Theorem C2_eager_operations_delegate_to_lazy
    (pd_merge : pd.DataFrame -> pd.DataFrame -> list string -> list string ->
                string -> exn + pd.DataFrame)
    (pd_argsort : (nat -> nat -> comparison) -> nat -> list nat)
    (self other : DataFrame)
    (exprs : list Expr) (named_exprs : list (string * Expr))
    (predicates : list Expr)
    (keys : list (string + list string)) (descending : bool + list bool)
    (how : string) (left_on right_on : string + list string) :
  (DataFrame_select self exprs named_exprs
   = (let* l := DataFrame_lazy self in
      let* r := LazyFrame_select l exprs named_exprs in
      LazyFrame_collect r) /\
   DataFrame_filter self predicates
   = (let* l := DataFrame_lazy self in
      let* r := LazyFrame_filter l predicates in
      LazyFrame_collect r) /\
   DataFrame_with_columns self exprs named_exprs
   = (let* l := DataFrame_lazy self in
      let* r := LazyFrame_with_columns l exprs named_exprs in
      LazyFrame_collect r) /\
   DataFrame_sort pd_argsort self keys descending
   = (let* l := DataFrame_lazy self in
      let* r := LazyFrame_sort pd_argsort l keys descending in
      LazyFrame_collect r) /\
   DataFrame_join pd_merge self other how left_on right_on
   = (let* l := DataFrame_lazy self in
      let* o := DataFrame_lazy other in
      let* r := LazyFrame_join pd_merge l o how left_on right_on in
      LazyFrame_collect r)) /\
  (DataFrame_ok self -> DataFrame_ok other ->
   DataFrame_select self exprs named_exprs
   = (let* r := LazyFrame_select (to_lazy self) exprs named_exprs in
      ret (to_eager r)) /\
   DataFrame_filter self predicates
   = (let* r := LazyFrame_filter (to_lazy self) predicates in
      ret (to_eager r)) /\
   DataFrame_with_columns self exprs named_exprs
   = (let* r := LazyFrame_with_columns (to_lazy self) exprs named_exprs in
      ret (to_eager r)) /\
   DataFrame_sort pd_argsort self keys descending
   = (let* r := LazyFrame_sort pd_argsort (to_lazy self) keys descending in
      ret (to_eager r)) /\
   DataFrame_join pd_merge self other how left_on right_on
   = (let* r := LazyFrame_join pd_merge (to_lazy self) (to_lazy other)
                  how left_on right_on in
      ret (to_eager r))).
Proof.
  split; [repeat split|]. intros Hself Hother. repeat split.
  - apply (via_lazy_ok self
             (fun l => LazyFrame_select l exprs named_exprs) Hself).
    intros t r. apply LazyFrame_select_ok.
  - apply (via_lazy_ok self
             (fun l => LazyFrame_filter l predicates) Hself).
    intros t r. apply LazyFrame_filter_ok.
  - apply (via_lazy_ok self
             (fun l => LazyFrame_with_columns l exprs named_exprs) Hself).
    intros t r. apply LazyFrame_with_columns_ok.
  - apply (via_lazy_ok self
             (fun l => LazyFrame_sort pd_argsort l keys descending) Hself).
    intros t r. apply LazyFrame_sort_ok.
  - unfold DataFrame_join.
    rewrite (DataFrame_lazy_ok _ Hself), bind_ret_l.
    rewrite (DataFrame_lazy_ok _ Hother), bind_ret_l.
    apply bind_ext_inr. intros t r Hr. apply LazyFrame_collect_ok.
    eapply LazyFrame_join_ok, Hr.
Qed.

Lemma C2_eager_operations_delegate_to_lazy_witness :
  DataFrame_select eager_ab [col "b"] []
  = ([call_concat [("b", [VInt 10; VInt 20; VInt 30])]],
     inr (mkDataFrame
            (pd.mkDataFrame [0; 1; 2]%Z [("b", [VInt 10; VInt 20; VInt 30])])
            "v1" ["b"])).
Proof.
  pose proof (C2_eager_operations_delegate_to_lazy merge_left stable_argsort
                eager_ab eager_bc
                [col "b"] [] [] [] (inl false) "inner" (inl "b") (inl "b"))
    as [_ Hrewrap].
  destruct (Hrewrap eager_ab_ok eager_bc_ok) as [-> _].
  vm_compute. reflexivity.
Defined.

(** ** The order on cells and rows is a total order *)

Global Instance N_compare_Comparator : Comparator N.compare.
Proof.
  split.
  - apply N.compare_eq_iff.
  - intros x y. apply N.compare_antisym.
  - intros x y z [] Hxy Hyz.
    + apply N.compare_eq_iff in Hxy, Hyz. subst. apply N.compare_refl.
    + rewrite N.compare_lt_iff in *. lia.
    + rewrite N.compare_gt_iff in *. lia.
Qed.

Global Instance Z_compare_Comparator : Comparator Z.compare.
Proof.
  split.
  - apply Z.compare_eq_iff.
  - intros x y. apply Z.compare_antisym.
  - intros x y z [] Hxy Hyz.
    + apply Z.compare_eq_iff in Hxy, Hyz. subst. apply Z.compare_refl.
    + rewrite Z.compare_lt_iff in *. lia.
    + rewrite Z.compare_gt_iff in *. lia.
Qed.

Global Instance bool_compare_Comparator : Comparator Bool.compare.
Proof.
  split.
  - intros [] []; simpl; split; congruence.
  - intros [] []; reflexivity.
  - intros [] [] [] c; simpl; congruence.
Qed.

(** A total order seen through an injective function. *)
Lemma Comparator_pullback {A B} (f : A -> B) (cmp : B -> B -> comparison) :
  Inj (=) (=) f -> Comparator cmp ->
  Comparator (fun x y => cmp (f x) (f y)).
Proof.
  intros Hinj Hcmp. split.
  - intros x y. rewrite cmp_eq_iff. split; [apply Hinj | congruence].
  - intros x y. apply cmp_opp.
  - intros x y z c. apply cmp_trans.
Qed.

Global Instance ascii_compare_Comparator : Comparator Ascii.compare.
Proof.
  apply (Comparator_pullback N_of_ascii N.compare); [|apply _].
  intros a b Hab. rewrite <- (ascii_N_embedding a), <- (ascii_N_embedding b).
  by rewrite Hab.
Qed.

Global Instance list_compare_Comparator {A} (cmp : A -> A -> comparison) :
  Comparator cmp -> Comparator (list_compare cmp).
Proof.
  intros Hcmp. split.
  - intros xs ys. apply list_compare_refl, cmp_eq_iff.
  - intros xs ys. apply list_compare_antisym; [apply cmp_eq_iff | apply cmp_opp].
  - intros xs ys zs c.
    apply list_compare_trans; [apply cmp_eq_iff | apply cmp_trans | apply cmp_opp].
Qed.

Global Instance string_compare_Comparator : Comparator string_compare.
Proof.
  apply (Comparator_pullback list_ascii_of_string (list_compare Ascii.compare));
    [|apply _].
  intros s1 s2 Hs.
  rewrite <- (string_of_list_ascii_of_string s1),
          <- (string_of_list_ascii_of_string s2).
  by rewrite Hs.
Qed.

Global Instance value_compare_Comparator : Comparator value_compare.
Proof.
  split.
  - intros [x|x|x] [y|y|y]; simpl; try (split; congruence).
    + rewrite (cmp_eq_iff (cmp := Bool.compare)). split; congruence.
    + rewrite (cmp_eq_iff (cmp := Z.compare)). split; congruence.
    + rewrite (cmp_eq_iff (cmp := string_compare)). split; congruence.
  - intros [x|x|x] [y|y|y]; simpl; try reflexivity; apply cmp_opp.
  - intros [x|x|x] [y|y|y] [z|z|z] c; simpl; try congruence; apply cmp_trans.
Qed.

Global Instance dvalue_compare_Comparator : Comparator dvalue_compare.
Proof.
  split.
  - intros [x|x] [y|y]; simpl; try (split; congruence);
      rewrite (cmp_eq_iff (cmp := value_compare)); split; congruence.
  - intros [x|x] [y|y]; simpl; try reflexivity; apply cmp_opp.
  - intros [x|x] [y|y] [z|z] c; simpl; try congruence; [apply cmp_trans|].
    intros Hxy Hyz. by apply (cmp_trans z y x).
Qed.

(** ** Insertion sort and the sample engines *)

Lemma row_compare_is_ordering dirs cols : is_ordering (row_compare dirs cols).
Proof.
  unfold row_compare. split.
  - intros p q. apply cmp_opp.
  - intros p q z Hpq Hqz.
    destruct (list_compare dvalue_compare (row_key dirs cols p)
                (row_key dirs cols q)) eqn:E1; [| |done].
    + apply cmp_eq_iff in E1. by rewrite E1.
    + destruct (list_compare dvalue_compare (row_key dirs cols q)
                  (row_key dirs cols z)) eqn:E2; [| |done].
      * apply cmp_eq_iff in E2. rewrite <- E2, E1. done.
      * rewrite (cmp_trans _ _ _ Lt E1 E2). done.
Qed.

Section StableSort.
Variable cmp : nat -> nat -> comparison.
Hypothesis cmp_orders : is_ordering cmp.

Lemma insert_by_Permutation p l : insert_by cmp p l ≡ₚ p :: l.
Proof.
  induction l as [|q l IH]; simpl; [done|].
  destruct (cmp p q); try done.
  rewrite IH. apply Permutation_swap.
Qed.

Lemma stable_sort_Permutation ps : stable_sort cmp ps ≡ₚ ps.
Proof.
  induction ps as [|p ps IH]; simpl; [done|].
  by rewrite insert_by_Permutation, IH.
Qed.



Lemma insert_by_sorted p l :
  StronglySorted (fun x y => cmp x y ≠ Gt) l ->
  StronglySorted (fun x y => cmp x y ≠ Gt) (insert_by cmp p l).
Proof.
  induction l as [|q l IH]; simpl; intros Hsorted.
  - repeat constructor.
  - pose proof Hsorted as Hall.
    apply StronglySorted_inv in Hsorted as [Hsorted Hq].
    assert (cmp p q ≠ Gt ->
            StronglySorted (fun x y => cmp x y ≠ Gt) (p :: q :: l)) as Hfront.
    { intros Hle. constructor; [done|].
      constructor; [done|].
      rewrite Forall_forall in Hq |- *. intros z Hz.
      apply (proj2 cmp_orders p q z Hle), Hq, Hz. }
    destruct (cmp p q) eqn:E.
    + by apply Hfront.
    + by apply Hfront.
    + constructor; [by apply IH|].
      rewrite insert_by_Permutation. constructor; [|done].
      by rewrite (proj1 cmp_orders), E.
Qed.

Lemma stable_sort_sorted ps :
  StronglySorted (fun x y => cmp x y ≠ Gt) (stable_sort cmp ps).
Proof.
  induction ps as [|p ps IH]; simpl; [constructor|].
  by apply insert_by_sorted.
Qed.

End StableSort.

Lemma StronglySorted_lookup_lt {A} (R : A -> A -> Prop) (l : list A) i j x y :
  StronglySorted R l -> i < j -> l !! i = Some x -> l !! j = Some y -> R x y.
Proof.
  intros Hsorted. revert i j.
  induction Hsorted as [|a l Hsorted IH Ha]; intros i j Hij Hi Hj; [done|].
  destruct j as [|j]; [lia|]. destruct i as [|i]; simpl in *.
  - injection Hi as ->. rewrite Forall_forall in Ha.
    apply Ha. by eapply list_elem_of_lookup_2.
  - apply (IH i j); [lia | done | done].
Qed.

(** Insertion sort of the rows, in whatever order they are fed to it, is
    a sort as [engine_sorts] asks. *)
Lemma insertion_engine_sorts (input : nat -> list nat) :
  (forall n, input n ≡ₚ seq 0 n) ->
  engine_sorts (fun cmp n => stable_sort cmp (input n)).
Proof.
  intros Hinput cmp n Hcmp. split.
  - rewrite <- (Hinput n). apply stable_sort_Permutation.
  - intros i j p q Hij Hp Hq.
    pose proof (stable_sort_sorted cmp Hcmp (input n)) as Hsorted.
    apply (StronglySorted_lookup_lt _ _ i j p q Hsorted Hij Hp Hq).
Qed.

Lemma stable_argsort_sorts : engine_sorts stable_argsort.
Proof. apply (insertion_engine_sorts (seq 0)). done. Qed.


(** ** sort: what reaches the engine *)

Lemma take_rows_columns ps df : pd.columns (take_rows ps df) = pd.columns df.
Proof.
  unfold pd.columns, take_rows. simpl. rewrite <- list_fmap_compose.
  apply list_fmap_ext. by intros _ [k c] _.
Qed.

Lemma take_rows_index ps df : pd.index (take_rows ps df) = take ps (pd.index df).
Proof. done. Qed.

Lemma key_columns_own (d d' : list (string * list value)) :
  (forall kv, kv ∈ d' -> dict_get kv.1 d = Some kv.2) ->
  key_columns d'.*1 d = inr d'.*2.
Proof.
  induction d' as [|[k c] d' IH]; intros Hget; [done|].
  rewrite !fmap_cons. cbn [key_columns fst snd].
  assert (dict_get k d = Some c) as -> by (apply (Hget (k, c)); left).
  rewrite IH; [done|]. intros kv Hkv. apply Hget. by right.
Qed.

Lemma key_columns_all (df : pd.DataFrame) :
  NoDup (pd.columns df) ->
  key_columns (pd.columns df) (pd.data df) = inr (pd.data df).*2.
Proof.
  intros Hnd. apply key_columns_own. intros [k c] Hkv. by apply dict_elem_get.
Qed.

Lemma key_columns_length by_ data cols :
  key_columns by_ data = inr cols -> length cols = length by_.
Proof.
  revert cols. induction by_ as [|k by_ IH]; simpl; intros cols.
  - by intros [= <-].
  - destruct (dict_get k data); [|done].
    destruct (key_columns by_ data) as [|cols']; [done|].
    intros [= <-]. simpl. f_equal. by apply IH.
Qed.


(** ** C7: with_columns *)


Lemma dict_set_new {V} (d : list (string * V)) k v :
  k ∉ d.*1 -> dict_set k v d = d ++ [(k, v)].
Proof.
  induction d as [|[k' c'] d IH]; intros Hk; [done|].
  rewrite fmap_cons in Hk. apply not_elem_of_cons in Hk as [Hne Hk].
  simpl in *. rewrite decide_False by done. f_equal. by apply IH.
Qed.

Lemma LazyFrame_with_columns_eq (self : LazyFrame) exprs named_exprs new_series :
  LazyFrame_ok self ->
  evaluate_into_exprs self exprs named_exprs = ret new_series ->
  "self" ∉ name <$> new_series ->
  let df := LazyFrame_dataframe self in
  let kwargs := dict_comprehension name series new_series in
  LazyFrame_with_columns self exprs named_exprs
  = ([call_assign df kwargs],
     inr (mkLazyFrame (assign_items df kwargs) (LazyFrame_api_version self)
            (pd.columns (assign_items df kwargs)))).
Proof.
  intros [Hnd Hcols] Heval Hself df kwargs. unfold LazyFrame_with_columns.
  rewrite Heval, bind_ret_l. cbv zeta. fold df kwargs.
  unfold pd_assign. rewrite decide_False.
  - rewrite bind_perform_inr. unfold LazyFrame__from_dataframe.
    rewrite LazyFrame_init_unique; [done|].
    unfold assign_items, pd.columns. simpl. apply dict_fold_NoDup. exact Hnd.
  - unfold kwargs, dict_comprehension.
    rewrite dict_fold_elem_of, fmap_nil, elem_of_nil. tauto.
Qed.






(** ** C1: select *)

Lemma dict_fold_keys {X V} (key : X -> string) (val : X -> V) xs
    (d : list (string * V)) :
  (fold_left (fun d x => dict_set (key x) (val x) d) xs d).*1
  = fold_left (fun acc k => if decide (k ∈ acc) then acc else acc ++ [k])
      (key <$> xs) d.*1.
Proof.
  revert d. induction xs as [|x xs IH]; intros d; [done|].
  rewrite fmap_cons. cbn [fold_left]. by rewrite IH, dict_set_keys.
Qed.

Lemma dict_comprehension_keys {X V} (key : X -> string) (val : X -> V) xs :
  (dict_comprehension key val xs).*1 = first_occurrences (key <$> xs).
Proof. apply dict_fold_keys. Qed.

(** The value a dict comprehension keeps for a key is the one of the last
    element with that key. *)
Lemma dict_fold_get {X V} (key : X -> string) (val : X -> V) xs
    (d : list (string * V)) n :
  dict_get n (fold_left (fun d x => dict_set (key x) (val x) d) xs d)
  = match last (filter (fun x => key x = n) xs) with
    | Some x => Some (val x)
    | None => dict_get n d
    end.
Proof.
  revert d. induction xs as [|x xs IH]; intros d; [done|].
  cbn [fold_left]. rewrite IH, dict_get_set, filter_cons.
  destruct (decide (key x = n)) as [Hk|Hk].
  - rewrite decide_True by done. rewrite last_cons.
    by destruct (last (filter (fun x => key x = n) xs)).
  - rewrite decide_False by done. done.
Qed.

Lemma evaluate_into_exprs_trace self exprs named_exprs t r :
  evaluate_into_exprs self exprs named_exprs = (t, r) -> t = [].
Proof.
  assert (forall es t r, evaluate_all self es = (t, r) -> t = []) as Hall.
  { induction es as [|e es IH]; simpl; intros t' r'; [by intros [= <- _]|].
    destruct (e self) as [err|s]; simpl; [by intros [= <- _]|].
    destruct (evaluate_all self es) as [t1 [err|ss]] eqn:Hes;
      simpl; rewrite (IH _ _ eq_refl); by intros [= <- _]. }
  assert (forall ns t r, evaluate_named self ns = (t, r) -> t = []) as Hnamed.
  { induction ns as [|[k e] ns IH]; simpl; intros t' r'; [by intros [= <- _]|].
    destruct (e self) as [err|s]; simpl; [by intros [= <- _]|].
    destruct (evaluate_named self ns) as [t1 [err|ss]] eqn:Hes;
      simpl; rewrite (IH _ _ eq_refl); by intros [= <- _]. }
  unfold evaluate_into_exprs.
  destruct (evaluate_all self exprs) as [t1 [err|a]] eqn:Ha;
    rewrite (Hall _ _ _ Ha); simpl; [by intros [= <- _]|].
  destruct (evaluate_named self named_exprs) as [t2 [err|b]] eqn:Hb;
    rewrite (Hnamed _ _ _ Hb); simpl; by intros [= <- _].
Qed.

(** C1 (as the code has it).  When the expressions given to [select]
    evaluate to the Series [new_series], at least one, [select] does not
    fail: the Series are first gathered in a dict keyed by their names, so
    the frame handed to the constructor has one column per distinct name,
    in the order of the first occurrence of each name, holding the cells of
    the last Series of that name, and the constructor's check for repeated
    names passes.  No "Expected unique column names" error comes out of
    [select], whatever the names. *)
Theorem C1_select_keeps_one_column_per_name
    (self : LazyFrame) (exprs : list Expr) (named_exprs : list (string * Expr))
    (new_series : list Series) :
  evaluate_into_exprs self exprs named_exprs = ret new_series ->
  new_series ≠ [] ->
  let objs := dict_comprehension name series new_series in
  LazyFrame_select self exprs named_exprs
  = ([call_concat objs],
     inr (mkLazyFrame
            (pd.mkDataFrame (pd.index (LazyFrame_dataframe self)) objs)
            (LazyFrame_api_version self) objs.*1)) /\
  objs.*1 = first_occurrences (name <$> new_series) /\
  NoDup objs.*1 /\
  (forall n, n ∈ objs.*1 <-> n ∈ name <$> new_series) /\
  (forall n, dict_get n objs
             = series <$> last (filter (fun s => name s = n) new_series)) /\
  (forall col count,
     outcome (LazyFrame_select self exprs named_exprs)
     ≠ inl (ValueError (Expected_unique_column_names col count))).
Proof.
  intros Heval Hne objs.
  assert (LazyFrame_select self exprs named_exprs
          = ([call_concat objs],
             inr (mkLazyFrame
                    (pd.mkDataFrame (pd.index (LazyFrame_dataframe self)) objs)
                    (LazyFrame_api_version self) objs.*1))) as Heq.
  { unfold LazyFrame_select. rewrite Heval, bind_ret_l. cbv zeta. fold objs.
    assert (pd_concat (pd.index (LazyFrame_dataframe self)) objs
            = inr (pd.mkDataFrame (pd.index (LazyFrame_dataframe self)) objs))
      as ->.
    { unfold pd_concat. destruct objs as [|o objs'] eqn:Hobjs; [|done].
      exfalso. destruct new_series as [|s ss]; [done|].
      assert (name s ∈ objs.*1) as Hin.
      { apply dict_fold_elem_of. left. rewrite fmap_cons. left. }
      rewrite Hobjs in Hin. by apply elem_of_nil in Hin. }
    rewrite bind_perform_inr. unfold LazyFrame__from_dataframe.
    rewrite LazyFrame_init_unique; [done|].
    apply dict_comprehension_NoDup. }
  split; [exact Heq|]. split; [apply dict_comprehension_keys|].
  split; [apply dict_comprehension_NoDup|]. split; [|split].
  - intros n. unfold objs, dict_comprehension.
    rewrite dict_fold_elem_of, fmap_nil, elem_of_nil. tauto.
  - intros n. unfold objs, dict_comprehension. rewrite dict_fold_get.
    by destruct (last (filter (fun s => name s = n) new_series)).
  - intros c n. by rewrite Heq.
Qed.

Lemma C1_select_keeps_one_column_per_name_witness :
  LazyFrame_select lazy_ab [col "a"; col "b"] [("a", col "b")]
  = ([call_concat [("a", [VInt 10; VInt 20; VInt 30]);
                   ("b", [VInt 10; VInt 20; VInt 30])]],
     inr (mkLazyFrame
            (pd.mkDataFrame [0; 1; 2]%Z
               [("a", [VInt 10; VInt 20; VInt 30]);
                ("b", [VInt 10; VInt 20; VInt 30])])
            "v1" ["a"; "b"])).
Proof.
  apply (C1_select_keeps_one_column_per_name lazy_ab [col "a"; col "b"]
           [("a", col "b")]
           [mkSeries "a" [VInt 1; VInt 2; VInt 1];
            mkSeries "b" [VInt 10; VInt 20; VInt 30];
            mkSeries "a" [VInt 10; VInt 20; VInt 30]] eq_refl).
  discriminate.
Defined.

(** C1 as stated fails: two Series named "a" come out of the evaluation,
    and [select] returns a frame with the single column "a" holding the
    cells of the second one; the first is dropped without any error. *)
Lemma C1_select_duplicate_names_counterexample :
  exists new_series,
    evaluate_into_exprs lazy_ab [col "a"] [("a", col "b")] = ret new_series /\
    name <$> new_series = ["a"; "a"] /\
    LazyFrame_select lazy_ab [col "a"] [("a", col "b")]
    = ([call_concat [("a", [VInt 10; VInt 20; VInt 30])]],
       inr (mkLazyFrame
              (pd.mkDataFrame [0; 1; 2]%Z [("a", [VInt 10; VInt 20; VInt 30])])
              "v1" ["a"])) /\
    ~ (exists c n,
         outcome (LazyFrame_select lazy_ab [col "a"] [("a", col "b")])
         = inl (ValueError (Expected_unique_column_names c n))).
Proof.
  exists [mkSeries "a" [VInt 1; VInt 2; VInt 1];
          mkSeries "a" [VInt 10; VInt 20; VInt 30]].
  repeat split.
  intros (c & n & Hout). vm_compute in Hout. discriminate.
Qed.

(** ** C5: filter *)

Lemma true_positions_spec i mask p :
  p ∈ true_positions i mask
  <-> i <= p /\ mask !! (p - i) = Some (VBool true).
Proof.
  revert i. induction mask as [|v mask IH]; intros i; simpl.
  - rewrite elem_of_nil. split; [done | by intros [_ ?]].
  - assert (p ∈ true_positions (S i) mask
            <-> i < p /\ mask !! (p - S i) = Some (VBool true)) as IH'
      by (rewrite IH; done).
    destruct (decide (v = VBool true)) as [->|Hv].
    + rewrite elem_of_cons, IH'. split.
      * intros [->|[Hlt Hp]].
        -- split; [lia|]. by rewrite Nat.sub_diag.
        -- split; [lia|]. by replace (p - i) with (S (p - S i)) by lia.
      * intros [Hle Hp]. destruct (decide (p = i)) as [->|Hne]; [by left|].
        right. split; [lia|].
        by replace (p - i) with (S (p - S i)) in Hp by lia.
    + rewrite IH'. split.
      * intros [Hlt Hp]. split; [lia|].
        by replace (p - i) with (S (p - S i)) by lia.
      * intros [Hle Hp]. destruct (decide (p = i)) as [->|Hne].
        -- rewrite Nat.sub_diag in Hp. simpl in Hp. congruence.
        -- split; [lia|]. by replace (p - i) with (S (p - S i)) in Hp by lia.
Qed.

Lemma true_positions_sorted i mask : StronglySorted lt (true_positions i mask).
Proof.
  revert i. induction mask as [|v mask IH]; intros i; simpl; [constructor|].
  case_decide; [|apply IH]. constructor; [apply IH|].
  apply Forall_forall. intros p [Hp _]%true_positions_spec. lia.
Qed.

Lemma true_positions_length i mask :
  length (true_positions i mask) <= length mask.
Proof.
  revert i. induction mask as [|v mask IH]; intros i; simpl; [done|].
  specialize (IH (S i)). case_decide; simpl; lia.
Qed.

Lemma take_length {A} (ps : list nat) (l : list A) :
  Forall (fun p => p < length l) ps -> length (take ps l) = length ps.
Proof.
  unfold take. induction ps as [|p ps IH]; intros Hps; [done|].
  apply Forall_cons in Hps as [Hp Hps]. cbn.
  destruct (l !! p) as [x|] eqn:Hx.
  - cbn. f_equal. by apply IH.
  - apply lookup_ge_None in Hx. lia.
Qed.

Lemma rows_of_labels_error labels keys e :
  rows_of_labels labels keys = inl e -> exists v, e = KeyError v.
Proof.
  induction keys as [|k keys IH]; simpl; [done|].
  destruct k as [b|l|s]; try (intros [= <-]; eauto).
  destruct (label_positions 0 l labels); [intros [= <-]; eauto|].
  destruct (rows_of_labels labels keys) as [e'|ps]; [|done].
  intros [= <-]. by apply IH.
Qed.

Lemma LazyFrame_wrap_rows (self : LazyFrame) ps :
  LazyFrame_ok self ->
  LazyFrame__from_dataframe self (take_rows ps (LazyFrame_dataframe self))
  = ret (mkLazyFrame (take_rows ps (LazyFrame_dataframe self))
           (LazyFrame_api_version self)
           (pd.columns (LazyFrame_dataframe self))).
Proof.
  intros [Hnd _]. unfold LazyFrame__from_dataframe.
  rewrite LazyFrame_init_unique by (by rewrite take_rows_columns).
  by rewrite take_rows_columns.
Qed.

(** C5 (as the code has it).  Let the predicates combine to the Series
    [mask].  [filter] itself checks nothing about the type of the mask.
    - A mask whose length is not the frame's row count is rejected by the
      comparand validator with a [ValueError]; the engine is not called.
    - A boolean mask of the right length: the engine is called once, and
      the result holds exactly the rows where the mask is [True], in
      their original relative order; there are no more of them than rows
      in the frame.
    - Any other mask of the right length is handed to the engine's
      indexer as it is, which reads it as row labels: the result is the
      rows carrying these labels, or the engine's [KeyError]; no
      [TypeError] is raised. *)
Theorem C5_filter_keeps_true_rows_in_order
    (self : LazyFrame) (predicates : list Expr) (mask : Series)
    (rest : list Series) :
  LazyFrame_ok self ->
  pandas.all_horizontal (LazyFrame___lazyframe_namespace__ self) predicates self
  = inr (mask :: rest) ->
  let df := LazyFrame_dataframe self in
  (length (series mask) ≠ pd.nrows df ->
     LazyFrame_filter self predicates
     = ([], inl (ValueError (Incompatible_lengths (length (series mask))
                               (pd.nrows df))))) /\
  (length (series mask) = pd.nrows df ->
   forallb is_bool (series mask) = true ->
     let ps := true_positions 0 (series mask) in
     LazyFrame_filter self predicates
     = ([call_loc df (series mask)],
        inr (mkLazyFrame (take_rows ps df) (LazyFrame_api_version self)
               (pd.columns df))) /\
     (forall p, p ∈ ps <-> series mask !! p = Some (VBool true)) /\
     StronglySorted lt ps /\
     pd.nrows (take_rows ps df) = length ps /\
     length ps <= pd.nrows df) /\
  (length (series mask) = pd.nrows df ->
   forallb is_bool (series mask) = false ->
     LazyFrame_filter self predicates
     = ([call_loc df (series mask)],
        match rows_of_labels (pd.index df) (series mask) with
        | inl e => inl e
        | inr ps =>
            inr (mkLazyFrame (take_rows ps df) (LazyFrame_api_version self)
                   (pd.columns df))
        end) /\
     (forall m, outcome (LazyFrame_filter self predicates) ≠ inl (TypeError m))).
Proof.
  intros Hok Hall df.
  assert (forall p, p ∈ true_positions 0 (series mask)
                    <-> series mask !! p = Some (VBool true)) as Hspec.
  { intros p. rewrite true_positions_spec, Nat.sub_0_r.
    split; [by intros [_ ?] | intros ?; split; [lia | done]]. }
  split; [|split].
  - intros Hlen. unfold LazyFrame_filter. cbv zeta. rewrite Hall, bind_lift_inr.
    simpl item0. rewrite bind_lift_inr.
    unfold validate_dataframe_comparand. fold df. by rewrite decide_False.
  - intros Hlen Hbool ps. split; [|split; [exact Hspec|split; [|split]]].
    + unfold LazyFrame_filter. cbv zeta. rewrite Hall, bind_lift_inr.
      simpl item0. rewrite bind_lift_inr.
      unfold validate_dataframe_comparand. fold df.
      rewrite decide_True by done. rewrite bind_lift_inr.
      unfold pd_loc. rewrite Hbool, decide_True by done.
      rewrite bind_perform_inr. unfold df.
      by rewrite (LazyFrame_wrap_rows self _ Hok).
    + apply true_positions_sorted.
    + unfold pd.nrows. rewrite take_rows_index. apply take_length.
      apply Forall_forall. intros p Hp%Hspec.
      apply lookup_lt_Some in Hp. unfold pd.nrows in Hlen. lia.
    + rewrite <- Hlen. apply true_positions_length.
  - intros Hlen Hbool.
    assert (LazyFrame_filter self predicates
            = ([call_loc df (series mask)],
               match rows_of_labels (pd.index df) (series mask) with
               | inl e => inl e
               | inr ps =>
                   inr (mkLazyFrame (take_rows ps df)
                          (LazyFrame_api_version self) (pd.columns df))
               end)) as Heq.
    { unfold LazyFrame_filter. cbv zeta. rewrite Hall, bind_lift_inr.
      simpl item0. rewrite bind_lift_inr.
      unfold validate_dataframe_comparand. fold df.
      rewrite decide_True by done. rewrite bind_lift_inr.
      unfold pd_loc. rewrite Hbool.
      destruct (rows_of_labels (pd.index df) (series mask)) as [e|ps];
        [done|].
      rewrite bind_perform_inr. unfold df.
      by rewrite (LazyFrame_wrap_rows self _ Hok). }
    split; [exact Heq|]. intros m. rewrite Heq. unfold outcome. simpl.
    destruct (rows_of_labels (pd.index df) (series mask)) as [e|ps] eqn:Hrows;
      [|done].
    apply rows_of_labels_error in Hrows as [v ->]. done.
Qed.

Lemma C5_filter_keeps_true_rows_in_order_witness :
  LazyFrame_filter lazy_ab
    [fun _ => inr [mkSeries "m" [VBool true; VBool false; VBool true]]]
  = ([call_loc frame_ab [VBool true; VBool false; VBool true]],
     inr (mkLazyFrame
            (take_rows [0; 2] frame_ab) "v1" ["a"; "b"])).
Proof.
  apply (proj1 (proj2
           (C5_filter_keeps_true_rows_in_order lazy_ab
              [fun _ => inr [mkSeries "m" [VBool true; VBool false; VBool true]]]
              (mkSeries "m" [VBool true; VBool false; VBool true]) []
              lazy_ab_ok eq_refl)) eq_refl eq_refl).
Defined.

(** C5 as stated fails: the predicate [col "a"] evaluates to the integer
    column [1, 2, 1]; [filter] raises no [TypeError] and returns the rows
    labelled 1, 2 and 1. *)
Lemma C5_filter_non_boolean_mask_counterexample :
  pandas.all_horizontal (LazyFrame___lazyframe_namespace__ lazy_ab)
    [col "a"] lazy_ab
  = inr [mkSeries "a" [VInt 1; VInt 2; VInt 1]] /\
  forallb is_bool [VInt 1; VInt 2; VInt 1] = false /\
  LazyFrame_filter lazy_ab [col "a"]
  = ([call_loc frame_ab [VInt 1; VInt 2; VInt 1]],
     inr (mkLazyFrame
            (pd.mkDataFrame [1; 2; 1]%Z
               [("a", [VInt 2; VInt 1; VInt 2]);
                ("b", [VInt 20; VInt 30; VInt 20])])
            "v1" ["a"; "b"])) /\
  ~ (exists m, outcome (LazyFrame_filter lazy_ab [col "a"]) = inl (TypeError m)).
Proof.
  repeat split. intros (m & Hout). vm_compute in Hout. discriminate.
Qed.

(** The one [TypeError] of this module is raised by [_validate_booleanness],
    which looks at the columns of the frame itself: it rejects the integer
    frame on which [filter] with a boolean mask succeeds. *)
Example validate_booleanness_is_not_part_of_filter :
  LazyFrame__validate_booleanness lazy_ab
  = raise (TypeError Any_only_where_all_dtypes_are_bool) /\
  outcome (LazyFrame_filter lazy_ab
             [fun _ => inr [mkSeries "m" [VBool true; VBool false; VBool true]]])
  = inr (mkLazyFrame
           (pd.mkDataFrame [0; 2]%Z
              [("a", [VInt 1; VInt 1]); ("b", [VInt 10; VInt 30])])
           "v1" ["a"; "b"]).
Proof. split; vm_compute; reflexivity. Qed.

(** ** C8: sort *)















(** * Further properties of the module *)

(** ** Constructors and re-wrapping *)

Lemma trace_bind {A B} (m : M A) (k : A -> M B) :
  trace (bind m k)
  = trace m ++ match outcome m with
               | inr x => trace (k x)
               | inl _ => []
               end.
Proof.
  destruct m as [t [e|x]]; simpl.
  - by rewrite app_nil_r.
  - by destruct (k x).
Qed.

Lemma _validate_columns_trace columns : trace (_validate_columns columns) = [].
Proof.
  unfold _validate_columns. induction (Counter columns) as [|[k n] items IH];
    simpl; [done|]. by destruct (1 <? n)%nat.
Qed.

Lemma LazyFrame_init_trace dataframe api_version :
  trace (LazyFrame_init dataframe api_version) = [].
Proof.
  unfold LazyFrame_init, LazyFrame__validate_columns.
  rewrite trace_bind, _validate_columns_trace.
  by destruct (outcome (_validate_columns (pd.columns dataframe))).
Qed.

Lemma DataFrame_init_trace dataframe api_version :
  trace (DataFrame_init dataframe api_version) = [].
Proof.
  unfold DataFrame_init, DataFrame__validate_columns.
  rewrite trace_bind, _validate_columns_trace.
  by destruct (outcome (_validate_columns (pd.columns dataframe))).
Qed.

Lemma DataFrame_init_inv dataframe api_version t r :
  DataFrame_init dataframe api_version = (t, inr r) ->
  t = [] /\ NoDup (pd.columns dataframe) /\
  r = mkDataFrame dataframe api_version (pd.columns dataframe).
Proof.
  intros Hinit. destruct (decide (NoDup (pd.columns dataframe))) as [Hnd|Hdup].
  - rewrite (DataFrame_init_unique _ _ Hnd) in Hinit.
    injection Hinit as <- <-. done.
  - destruct (_validate_columns_duplicate _ Hdup) as (c & n & _ & _ & _ & Heq).
    unfold DataFrame_init, DataFrame__validate_columns in Hinit.
    rewrite Heq in Hinit. discriminate.
Qed.

Lemma to_eager_to_lazy (d : DataFrame) : to_eager (to_lazy d) = d.
Proof. by destruct d. Qed.

Lemma to_lazy_to_eager (l : LazyFrame) : to_lazy (to_eager l) = l.
Proof. by destruct l. Qed.

Lemma to_lazy_ok (d : DataFrame) : DataFrame_ok d -> LazyFrame_ok (to_lazy d).
Proof. by intros [? ?]. Qed.

Lemma to_eager_ok (l : LazyFrame) : LazyFrame_ok l -> DataFrame_ok (to_eager l).
Proof. by intros [? ?]. Qed.

(** X1.  [lazy()] followed by [collect()] gives back the [DataFrame] it
    started from, and [collect()] followed by [lazy()] gives back the
    [LazyFrame]; re-wrapping the frame's own engine frame with
    [_from_dataframe] gives back the frame as well.  None of it calls the
    engine.  This holds for frames as the constructors build them. *)
Theorem X1_lazy_collect_round_trip :
  (forall d : DataFrame,
     DataFrame_ok d ->
     (let* l := DataFrame_lazy d in LazyFrame_collect l) = ([], inr d) /\
     DataFrame__from_dataframe d (DataFrame_dataframe d) = ([], inr d)) /\
  (forall l : LazyFrame,
     LazyFrame_ok l ->
     (let* d := LazyFrame_collect l in DataFrame_lazy d) = ([], inr l) /\
     LazyFrame__from_dataframe l (LazyFrame_dataframe l) = ([], inr l)).
Proof.
  split.
  - intros d Hd. split.
    + rewrite (DataFrame_lazy_ok _ Hd), bind_ret_l.
      rewrite (LazyFrame_collect_ok _ (to_lazy_ok _ Hd)).
      by rewrite to_eager_to_lazy.
    + destruct Hd as [Hnd Hcols]. unfold DataFrame__from_dataframe.
      unfold DataFrame_dataframe. rewrite (DataFrame_init_unique _ _ Hnd).
      rewrite <- Hcols. by destruct d.
  - intros l Hl. split.
    + rewrite (LazyFrame_collect_ok _ Hl), bind_ret_l.
      rewrite (DataFrame_lazy_ok _ (to_eager_ok _ Hl)).
      by rewrite to_lazy_to_eager.
    + destruct Hl as [Hnd Hcols]. unfold LazyFrame__from_dataframe.
      unfold LazyFrame_dataframe. rewrite (LazyFrame_init_unique _ _ Hnd).
      rewrite <- Hcols. by destruct l.
Qed.

Lemma X1_lazy_collect_round_trip_witness :
  (let* l := DataFrame_lazy eager_ab in LazyFrame_collect l)
  = ([], inr eager_ab) /\
  (let* d := LazyFrame_collect lazy_ab in DataFrame_lazy d)
  = ([], inr lazy_ab).
Proof.
  split.
  - exact (proj1 (proj1 X1_lazy_collect_round_trip eager_ab eager_ab_ok)).
  - exact (proj1 (proj2 X1_lazy_collect_round_trip lazy_ab lazy_ab_ok)).
Defined.

(** ** What every operation keeps *)

Lemma LazyFrame__from_dataframe_inv self df t r :
  LazyFrame__from_dataframe self df = (t, inr r) ->
  LazyFrame_ok r /\ LazyFrame_api_version r = LazyFrame_api_version self /\
  LazyFrame_dataframe r = df.
Proof.
  unfold LazyFrame__from_dataframe. intros (_ & Hnd & ->)%LazyFrame_init_inv.
  done.
Qed.

Lemma LazyFrame_collect_inv self t d :
  LazyFrame_collect self = (t, inr d) ->
  DataFrame_ok d /\ DataFrame_api_version d = LazyFrame_api_version self /\
  DataFrame_dataframe d = LazyFrame_dataframe self.
Proof.
  unfold LazyFrame_collect. intros (_ & Hnd & ->)%DataFrame_init_inv. done.
Qed.

Lemma DataFrame_lazy_inv self t l :
  DataFrame_lazy self = (t, inr l) ->
  LazyFrame_ok l /\ LazyFrame_api_version l = DataFrame_api_version self /\
  LazyFrame_dataframe l = DataFrame_dataframe self.
Proof.
  unfold DataFrame_lazy. intros (_ & Hnd & ->)%LazyFrame_init_inv. done.
Qed.

Lemma LazyFrame_select_version self exprs named_exprs t r :
  LazyFrame_select self exprs named_exprs = (t, inr r) ->
  LazyFrame_ok r /\ LazyFrame_api_version r = LazyFrame_api_version self.
Proof.
  unfold LazyFrame_select. intros H. bind_inv H.
  apply LazyFrame__from_dataframe_inv in H. tauto.
Qed.

Lemma LazyFrame_filter_version self predicates t r :
  LazyFrame_filter self predicates = (t, inr r) ->
  LazyFrame_ok r /\ LazyFrame_api_version r = LazyFrame_api_version self.
Proof.
  unfold LazyFrame_filter. intros H. bind_inv H.
  apply LazyFrame__from_dataframe_inv in H. tauto.
Qed.

Lemma LazyFrame_with_columns_version self exprs named_exprs t r :
  LazyFrame_with_columns self exprs named_exprs = (t, inr r) ->
  LazyFrame_ok r /\ LazyFrame_api_version r = LazyFrame_api_version self.
Proof.
  unfold LazyFrame_with_columns. intros H. bind_inv H.
  apply LazyFrame__from_dataframe_inv in H. tauto.
Qed.

Lemma LazyFrame_sort_version pd_argsort self keys descending t r :
  LazyFrame_sort pd_argsort self keys descending = (t, inr r) ->
  LazyFrame_ok r /\ LazyFrame_api_version r = LazyFrame_api_version self.
Proof.
  unfold LazyFrame_sort. intros H. bind_inv H.
  apply LazyFrame__from_dataframe_inv in H. tauto.
Qed.

Lemma LazyFrame_join_version pd_merge self other how left_on right_on t r :
  LazyFrame_join pd_merge self other how left_on right_on = (t, inr r) ->
  LazyFrame_ok r /\ LazyFrame_api_version r = LazyFrame_api_version self.
Proof.
  unfold LazyFrame_join. intros H.
  repeat case_bool_decide; try discriminate. bind_inv H.
  apply LazyFrame__from_dataframe_inv in H. tauto.
Qed.

(** X2.  Whatever the receiver and the arguments, a [LazyFrame] returned
    by [select], [filter], [with_columns], [sort] or [join] has unique
    column names, its [columns] attribute lists the names of the engine
    frame it wraps, and it carries the [api_version] of the receiver
    (for [join]: of [self], never of [other]). *)
Theorem X2_lazy_results_are_validated_and_keep_version
    (pd_merge : pd.DataFrame -> pd.DataFrame -> list string -> list string ->
                string -> exn + pd.DataFrame)
    (pd_argsort : (nat -> nat -> comparison) -> nat -> list nat)
    (self other : LazyFrame)
    (exprs : list Expr) (named_exprs : list (string * Expr))
    (predicates : list Expr)
    (keys : list (string + list string)) (descending : bool + list bool)
    (how : string) (left_on right_on : string + list string)
    (t : list call) (r : LazyFrame) :
  LazyFrame_select self exprs named_exprs = (t, inr r) \/
  LazyFrame_filter self predicates = (t, inr r) \/
  LazyFrame_with_columns self exprs named_exprs = (t, inr r) \/
  LazyFrame_sort pd_argsort self keys descending = (t, inr r) \/
  LazyFrame_join pd_merge self other how left_on right_on = (t, inr r) ->
  NoDup (pd.columns (LazyFrame_dataframe r)) /\
  LazyFrame_columns r = pd.columns (LazyFrame_dataframe r) /\
  LazyFrame_api_version r = LazyFrame_api_version self.
Proof.
  intros [H|[H|[H|[H|H]]]].
  - apply LazyFrame_select_version in H as [[? ?] ?]. done.
  - apply LazyFrame_filter_version in H as [[? ?] ?]. done.
  - apply LazyFrame_with_columns_version in H as [[? ?] ?]. done.
  - apply LazyFrame_sort_version in H as [[? ?] ?]. done.
  - apply LazyFrame_join_version in H as [[? ?] ?]. done.
Qed.

Lemma X2_lazy_results_are_validated_and_keep_version_witness :
  NoDup ["a"; "b"] /\
  LazyFrame_columns lazy_ab = ["a"; "b"] /\
  LazyFrame_api_version lazy_ab = "v1".
Proof.
  apply (X2_lazy_results_are_validated_and_keep_version merge_left
           stable_argsort lazy_ab (mkLazyFrame frame_bc "v2" ["b"; "c"]) [] [] [] [] (inl false)
           "inner" (inl "b") (inl "b")
           [call_merge frame_ab frame_bc ["b"] ["b"] "inner"] lazy_ab).
  right. right. right. right. vm_compute. reflexivity.
Defined.

(** X3.  The same for the eager class: a [DataFrame] returned by [select],
    [filter], [with_columns], [sort] or [join] has unique column names, a
    [columns] attribute that lists them, and the [api_version] of [self]. *)
Theorem X3_eager_results_are_validated_and_keep_version
    (pd_merge : pd.DataFrame -> pd.DataFrame -> list string -> list string ->
                string -> exn + pd.DataFrame)
    (pd_argsort : (nat -> nat -> comparison) -> nat -> list nat)
    (self other : DataFrame)
    (exprs : list Expr) (named_exprs : list (string * Expr))
    (predicates : list Expr)
    (keys : list (string + list string)) (descending : bool + list bool)
    (how : string) (left_on right_on : string + list string)
    (t : list call) (r : DataFrame) :
  DataFrame_select self exprs named_exprs = (t, inr r) \/
  DataFrame_filter self predicates = (t, inr r) \/
  DataFrame_with_columns self exprs named_exprs = (t, inr r) \/
  DataFrame_sort pd_argsort self keys descending = (t, inr r) \/
  DataFrame_join pd_merge self other how left_on right_on = (t, inr r) ->
  NoDup (pd.columns (DataFrame_dataframe r)) /\
  DataFrame_columns r = pd.columns (DataFrame_dataframe r) /\
  DataFrame_api_version r = DataFrame_api_version self.
Proof.
  intros [H|[H|[H|[H|H]]]].
  - unfold DataFrame_select in H. bind_inv H.
    apply LazyFrame_collect_inv in H as ([? ?] & -> & _).
    apply LazyFrame_select_version in Hstep0 as [_ ->].
    apply DataFrame_lazy_inv in Hstep as (_ & -> & _). done.
  - unfold DataFrame_filter in H. bind_inv H.
    apply LazyFrame_collect_inv in H as ([? ?] & -> & _).
    apply LazyFrame_filter_version in Hstep0 as [_ ->].
    apply DataFrame_lazy_inv in Hstep as (_ & -> & _). done.
  - unfold DataFrame_with_columns in H. bind_inv H.
    apply LazyFrame_collect_inv in H as ([? ?] & -> & _).
    apply LazyFrame_with_columns_version in Hstep0 as [_ ->].
    apply DataFrame_lazy_inv in Hstep as (_ & -> & _). done.
  - unfold DataFrame_sort in H. bind_inv H.
    apply LazyFrame_collect_inv in H as ([? ?] & -> & _).
    apply LazyFrame_sort_version in Hstep0 as [_ ->].
    apply DataFrame_lazy_inv in Hstep as (_ & -> & _). done.
  - unfold DataFrame_join in H. bind_inv H.
    apply LazyFrame_collect_inv in H as ([? ?] & -> & _).
    apply LazyFrame_join_version in Hstep1 as [_ ->].
    apply DataFrame_lazy_inv in Hstep as (_ & -> & _). done.
Qed.

Lemma X3_eager_results_are_validated_and_keep_version_witness :
  NoDup ["a"; "b"] /\
  DataFrame_columns eager_ab = ["a"; "b"] /\
  DataFrame_api_version eager_ab = "v1".
Proof.
  apply (X3_eager_results_are_validated_and_keep_version merge_left
           stable_argsort eager_ab (mkDataFrame frame_bc "v2" ["b"; "c"]) [] [] [] [] (inl false)
           "inner" (inl "b") (inl "b")
           [call_merge frame_ab frame_bc ["b"] ["b"] "inner"] eager_ab).
  right. right. right. right. vm_compute. reflexivity.
Defined.

(** ** Which repeated name the constructors report *)

Lemma Counter_fold_keys_order l (c : list (string * nat)) :
  (fold_left (fun c k => dict_set k (default 0 (dict_get k c) + 1) c) l c).*1
  = fold_left (fun acc k => if decide (k ∈ acc) then acc else acc ++ [k])
      l c.*1.
Proof.
  revert c. induction l as [|a l IH]; intros c; [done|].
  cbn [fold_left]. by rewrite IH, dict_set_keys.
Qed.

Lemma Counter_keys l : (Counter l).*1 = first_occurrences l.
Proof. apply Counter_fold_keys_order. Qed.

Lemma first_occurrences_fold_prefix (l acc : list string) :
  exists ext,
    fold_left (fun acc k => if decide (k ∈ acc) then acc else acc ++ [k]) l acc
    = acc ++ ext.
Proof.
  revert acc. induction l as [|a l IH]; intros acc; simpl.
  - exists []. by rewrite app_nil_r.
  - case_decide; [apply IH|].
    destruct (IH (acc ++ [a])) as [ext ->]. exists (a :: ext).
    by rewrite <- app_assoc.
Qed.

Lemma first_occurrences_fold_elem_of (l acc : list string) (k : string) :
  k ∈ fold_left (fun acc k => if decide (k ∈ acc) then acc else acc ++ [k]) l acc
  <-> k ∈ acc \/ k ∈ l.
Proof.
  revert acc. induction l as [|a l IH]; intros acc; simpl.
  - rewrite elem_of_nil. tauto.
  - rewrite IH, elem_of_cons. case_decide as Ha.
    + split; [tauto|]. intros [?|[->|?]]; auto.
    + rewrite elem_of_app, list_elem_of_singleton. tauto.
Qed.

Lemma first_occurrences_split (pre : list string) (x : string) (rest : list string) :
  x ∉ pre ->
  exists ext,
    first_occurrences (pre ++ x :: rest) = first_occurrences pre ++ x :: ext.
Proof.
  intros Hx. unfold first_occurrences. rewrite fold_left_app. cbn [fold_left].
  rewrite decide_False.
  - destruct (first_occurrences_fold_prefix rest
                (fold_left (fun acc k => if decide (k ∈ acc) then acc
                                         else acc ++ [k]) pre [] ++ [x]))
      as [ext ->].
    exists ext. by rewrite <- app_assoc.
  - rewrite first_occurrences_fold_elem_of, elem_of_nil. tauto.
Qed.

Lemma NoDup_split_unique {A} (l1 l2 l1' l2' : list A) x :
  NoDup (l1 ++ x :: l2) -> l1 ++ x :: l2 = l1' ++ x :: l2' -> l1 = l1'.
Proof.
  revert l1'. induction l1 as [|a l1 IH]; intros [|a' l1'] Hnd Heq;
    simpl in *.
  - done.
  - injection Heq as <- ->. apply NoDup_cons in Hnd as [Hx _].
    exfalso. apply Hx. rewrite elem_of_app, elem_of_cons. tauto.
  - injection Heq as -> Heq. apply NoDup_cons in Hnd as [Hx _].
    exfalso. apply Hx. rewrite elem_of_app, elem_of_cons. tauto.
  - injection Heq as <- Heq. apply NoDup_cons in Hnd as [_ Hnd].
    f_equal. by apply IH.
Qed.

Lemma validate_items_first items :
  Exists (fun kv => 1 < kv.2) items ->
  exists items1 col count items2,
    items = items1 ++ (col, count) :: items2 /\
    Forall (fun kv => kv.2 <= 1) items1 /\ 1 < count /\
    validate_items items
    = raise (ValueError (Expected_unique_column_names col count)).
Proof.
  induction items as [|[k n] items IH]; intros Hex.
  - by apply Exists_nil in Hex.
  - simpl. destruct (Nat.ltb_spec 1 n) as [Hlt|Hle].
    + exists [], k, n, items. done.
    + apply Exists_cons in Hex as [Hhd|Htl]; [simpl in Hhd; lia|].
      destruct (IH Htl) as (i1 & c & m & i2 & -> & Hall & Hm & Heq).
      exists ((k, n) :: i1), c, m, i2. split; [done|].
      split; [by constructor|]. done.
Qed.

(** X4.  When several column names are repeated, the constructors report
    the one that comes first in the frame: every column before the first
    occurrence of the reported name occurs exactly once, and the count in
    the message is the number of occurrences of the reported name. *)
Theorem X4_validation_reports_first_repeated_name (columns : list string) :
  ~ NoDup columns ->
  exists pre col rest count,
    columns = pre ++ col :: rest /\
    (col ∉ pre) /\
    (forall k, k ∈ pre -> occurrences k columns = 1) /\
    count = occurrences col columns /\ 1 < count /\
    _validate_columns columns
    = raise (ValueError (Expected_unique_column_names col count)).
Proof.
  intros Hdup.
  assert (Exists (fun kv : string * nat => 1 < kv.2) (Counter columns)) as Hex.
  { destruct (_validate_columns_duplicate _ Hdup)
      as (c & n & Hc & Hn & Hlt & Heq).
    apply Exists_exists. exists (c, n). split; [|done].
    assert (c ∈ (Counter columns).*1) as Hk
      by (apply Counter_fold_keys; by left).
    apply list_elem_of_fmap in Hk as ([k m] & -> & Hkm).
    destruct (Counter_elem _ _ _ Hkm) as [-> _]. by rewrite Hn. }
  destruct (validate_items_first _ Hex)
    as (items1 & col & count & items2 & Hitems & Hall & Hlt & Heq).
  assert ((col, count) ∈ Counter columns) as Hin.
  { rewrite Hitems, elem_of_app, elem_of_cons. tauto. }
  destruct (Counter_elem _ _ _ Hin) as [Hcount Hcol].
  destruct (list_elem_of_split_l _ _ Hcol) as (pre & rest & Hsplit & Hpre).
  exists pre, col, rest, count. repeat split; try done.
  intros k Hk.
  destruct (first_occurrences_split pre col rest Hpre) as [ext Hfo].
  rewrite <- Hsplit, <- Counter_keys in Hfo.
  pose proof (Counter_NoDup columns) as Hnd.
  assert (items1.*1 = first_occurrences pre) as Hkeys.
  { apply (NoDup_split_unique _ items2.*1 _ ext col).
    - rewrite Hitems in Hnd. by rewrite fmap_app, fmap_cons in Hnd.
    - rewrite <- Hfo, Hitems. by rewrite fmap_app, fmap_cons. }
  assert (k ∈ items1.*1) as Hk1.
  { rewrite Hkeys. unfold first_occurrences.
    rewrite first_occurrences_fold_elem_of. by right. }
  apply list_elem_of_fmap in Hk1 as ([k' n] & -> & Hkn).
  rewrite Forall_forall in Hall. pose proof (Hall _ Hkn) as Hle.
  assert ((k', n) ∈ Counter columns) as Hkn'.
  { rewrite Hitems, elem_of_app. by left. }
  destruct (Counter_elem _ _ _ Hkn') as [-> Hkcol]. simpl in *.
  assert (0 < occurrences k' columns); [|lia].
  unfold occurrences. apply count_occ_In. by apply list_elem_of_In.
Qed.

Lemma X4_validation_reports_first_repeated_name_witness :
  exists pre col rest count,
    ["a"; "b"; "c"; "c"; "b"] = pre ++ col :: rest /\
    (col ∉ pre) /\
    (forall k, k ∈ pre -> occurrences k ["a"; "b"; "c"; "c"; "b"] = 1) /\
    count = occurrences col ["a"; "b"; "c"; "c"; "b"] /\ 1 < count /\
    _validate_columns ["a"; "b"; "c"; "c"; "b"]
    = raise (ValueError (Expected_unique_column_names col count)).
Proof.
  apply (X4_validation_reports_first_repeated_name ["a"; "b"; "c"; "c"; "b"]).
  apply (bool_decide_unpack _). vm_compute. exact I.
Defined.

Example validation_reports_first_repeated_name_example :
  _validate_columns ["a"; "b"; "c"; "c"; "b"]
  = raise (ValueError (Expected_unique_column_names "b" 2)).
Proof. vm_compute. reflexivity. Qed.

(** ** select *)

Lemma dict_fold_distinct {X V} (key : X -> string) (val : X -> V) xs
    (d : list (string * V)) :
  NoDup (d.*1 ++ (key <$> xs)) ->
  fold_left (fun d x => dict_set (key x) (val x) d) xs d
  = d ++ ((fun x => (key x, val x)) <$> xs).
Proof.
  revert d. induction xs as [|x xs IH]; intros d Hnd.
  - by rewrite app_nil_r.
  - rewrite !fmap_cons in *. cbn [fold_left].
    assert (key x ∉ d.*1) as Hx.
    { apply NoDup_app in Hnd as (_ & Hd & _). intros Hin.
      apply (Hd _ Hin). left. }
    rewrite (dict_set_new _ _ _ Hx), IH.
    + by rewrite <- app_assoc.
    + rewrite fmap_app, <- app_assoc. exact Hnd.
Qed.

Lemma dict_comprehension_distinct {X V} (key : X -> string) (val : X -> V) xs :
  NoDup (key <$> xs) ->
  dict_comprehension key val xs = (fun x => (key x, val x)) <$> xs.
Proof. intros Hnd. by apply (dict_fold_distinct key val xs []). Qed.

Lemma LazyFrame_select_eq (self : LazyFrame) exprs named_exprs new_series :
  evaluate_into_exprs self exprs named_exprs = ret new_series ->
  new_series ≠ [] ->
  LazyFrame_select self exprs named_exprs
  = ([call_concat (dict_comprehension name series new_series)],
     inr (mkLazyFrame
            (pd.mkDataFrame (pd.index (LazyFrame_dataframe self))
               (dict_comprehension name series new_series))
            (LazyFrame_api_version self)
            (dict_comprehension name series new_series).*1)).
Proof.
  intros Heval Hne. unfold LazyFrame_select. rewrite Heval, bind_ret_l.
  cbv zeta. set (objs := dict_comprehension name series new_series).
  assert (pd_concat (pd.index (LazyFrame_dataframe self)) objs
          = inr (pd.mkDataFrame (pd.index (LazyFrame_dataframe self)) objs))
    as ->.
  { unfold pd_concat. destruct objs as [|o objs'] eqn:Hobjs; [|done].
    exfalso. destruct new_series as [|s ss]; [done|].
    assert (name s ∈ objs.*1) as Hin.
    { apply dict_fold_elem_of. left. rewrite fmap_cons. left. }
    rewrite Hobjs in Hin. by apply elem_of_nil in Hin. }
  rewrite bind_perform_inr. unfold LazyFrame__from_dataframe.
  rewrite LazyFrame_init_unique; [done|]. apply dict_comprehension_NoDup.
Qed.

Lemma LazyFrame_select_distinct (self : LazyFrame) exprs named_exprs new_series :
  evaluate_into_exprs self exprs named_exprs = ret new_series ->
  new_series ≠ [] ->
  NoDup (name <$> new_series) ->
  LazyFrame_select self exprs named_exprs
  = ([call_concat ((fun s => (name s, series s)) <$> new_series)],
     inr (mkLazyFrame
            (pd.mkDataFrame (pd.index (LazyFrame_dataframe self))
               ((fun s => (name s, series s)) <$> new_series))
            (LazyFrame_api_version self) (name <$> new_series))).
Proof.
  intros Heval Hne Hnd. rewrite (LazyFrame_select_eq _ _ _ _ Heval Hne).
  rewrite (dict_comprehension_distinct name series _ Hnd).
  by rewrite <- list_fmap_compose.
Qed.

(** X5.  When the Series the expressions evaluate to hold one cell per row
    of the frame and have pairwise distinct names, [select] returns
    exactly these Series as the columns, one column per Series, in the
    order of evaluation and with the cells of each; none of the frame's
    own columns is kept unless selected. *)
Theorem X5_select_returns_the_series_in_evaluation_order
    (self : LazyFrame) (exprs : list Expr) (named_exprs : list (string * Expr))
    (new_series : list Series) :
  evaluate_into_exprs self exprs named_exprs = ret new_series ->
  new_series ≠ [] ->
  Forall (fun s => length (series s) = pd.nrows (LazyFrame_dataframe self))
    new_series ->
  NoDup (name <$> new_series) ->
  exists r,
    LazyFrame_select self exprs named_exprs
    = ([call_concat ((fun s => (name s, series s)) <$> new_series)], inr r) /\
    pd.data (LazyFrame_dataframe r)
    = (fun s => (name s, series s)) <$> new_series /\
    LazyFrame_columns r = name <$> new_series /\
    length (pd.data (LazyFrame_dataframe r)) = length new_series.
Proof.
  intros Heval Hne _ Hnd. eexists. split.
  - by apply LazyFrame_select_distinct.
  - simpl. by rewrite length_fmap.
Qed.

Lemma X5_select_returns_the_series_in_evaluation_order_witness :
  exists r,
    LazyFrame_select lazy_ab [col "b"] [("c", col "a")]
    = ([call_concat [("b", [VInt 10; VInt 20; VInt 30]);
                     ("c", [VInt 1; VInt 2; VInt 1])]], inr r) /\
    pd.data (LazyFrame_dataframe r)
    = [("b", [VInt 10; VInt 20; VInt 30]); ("c", [VInt 1; VInt 2; VInt 1])] /\
    LazyFrame_columns r = ["b"; "c"] /\
    length (pd.data (LazyFrame_dataframe r)) = 2.
Proof.
  apply (X5_select_returns_the_series_in_evaluation_order lazy_ab
           [col "b"] [("c", col "a")]
           [mkSeries "b" [VInt 10; VInt 20; VInt 30];
            mkSeries "c" [VInt 1; VInt 2; VInt 1]] eq_refl).
  - discriminate.
  - repeat constructor.
  - apply (bool_decide_unpack _). vm_compute. exact I.
Defined.

(** X6.  Selecting every column of a frame, in the frame's order and each
    under its own name, gives back the frame itself (for a frame as the
    constructor builds it, with at least one column). *)
Theorem X6_select_of_all_columns_is_identity
    (self : LazyFrame) (exprs : list Expr) (named_exprs : list (string * Expr)) :
  LazyFrame_ok self ->
  pd.data (LazyFrame_dataframe self) ≠ [] ->
  evaluate_into_exprs self exprs named_exprs
  = ret ((fun c => mkSeries c.1 c.2) <$> pd.data (LazyFrame_dataframe self)) ->
  LazyFrame_select self exprs named_exprs
  = ([call_concat (pd.data (LazyFrame_dataframe self))], inr self).
Proof.
  intros [Hnd Hcols] Hne Heval.
  assert ((fun s => (name s, series s))
            <$> ((fun c => mkSeries c.1 c.2) <$> pd.data (LazyFrame_dataframe self))
          = pd.data (LazyFrame_dataframe self)) as Hdata.
  { rewrite <- list_fmap_compose. rewrite <- (list_fmap_id (pd.data _)) at 2.
    apply list_fmap_ext. by intros _ [k c] _. }
  assert (name <$> ((fun c => mkSeries c.1 c.2)
                      <$> pd.data (LazyFrame_dataframe self))
          = pd.columns (LazyFrame_dataframe self)) as Hnames.
  { rewrite <- list_fmap_compose. apply list_fmap_ext. by intros _ [k c] _. }
  rewrite (LazyFrame_select_distinct _ _ _ _ Heval).
  - rewrite Hdata, Hnames. unfold LazyFrame_dataframe in *.
    rewrite <- Hcols. destruct self as [[idx data] api cols]. done.
  - intros Hnil. apply fmap_nil_inv in Hnil. done.
  - rewrite Hnames. exact Hnd.
Qed.

Lemma X6_select_of_all_columns_is_identity_witness :
  LazyFrame_select lazy_ab [col "a"; col "b"] []
  = ([call_concat (pd.data frame_ab)], inr lazy_ab).
Proof.
  apply (X6_select_of_all_columns_is_identity lazy_ab [col "a"; col "b"] []
           lazy_ab_ok).
  - discriminate.
  - reflexivity.
Defined.

(** ** with_columns *)

Lemma filter_not_in_snoc (acc l : list string) (a : string) :
  a ∉ l ->
  filter (fun k => k ∉ acc ++ [a]) l = filter (fun k => k ∉ acc) l.
Proof.
  induction l as [|x l IH]; intros Ha; [done|].
  apply not_elem_of_cons in Ha as [Hne Ha].
  rewrite !filter_cons, IH by done.
  destruct (decide (x ∉ acc)) as [Hx|Hx].
  - rewrite decide_True; [done|].
    rewrite elem_of_app, list_elem_of_singleton. intros [?|?]; [done|].
    by subst.
  - rewrite decide_False; [done|].
    intros Hx'. apply Hx. intros Hin. apply Hx'. rewrite elem_of_app. by left.
Qed.

Lemma first_occurrences_fold_NoDup (l acc : list string) :
  NoDup l ->
  fold_left (fun acc k => if decide (k ∈ acc) then acc else acc ++ [k]) l acc
  = acc ++ filter (fun k => k ∉ acc) l.
Proof.
  revert acc. induction l as [|a l IH]; intros acc Hnd; simpl.
  - by rewrite app_nil_r.
  - apply NoDup_cons in Hnd as [Ha Hnd]. rewrite filter_cons.
    destruct (decide (a ∈ acc)) as [Hin|Hnin].
    + rewrite decide_False by (intros Hn; by apply Hn). by apply IH.
    + rewrite decide_True by done. rewrite (IH _ Hnd).
      rewrite (filter_not_in_snoc _ _ _ Ha). by rewrite <- app_assoc.
Qed.

Lemma assign_items_columns df (kwargs : list (string * list value)) :
  NoDup kwargs.*1 ->
  pd.columns (assign_items df kwargs)
  = pd.columns df ++ filter (fun n => n ∉ pd.columns df) kwargs.*1.
Proof.
  intros Hnd. unfold assign_items, pd.columns. cbn [pd.data].
  rewrite (dict_fold_keys fst snd). by apply first_occurrences_fold_NoDup.
Qed.

Lemma assign_items_get df (kwargs : list (string * list value)) n :
  NoDup kwargs.*1 ->
  dict_get n (pd.data (assign_items df kwargs))
  = match dict_get n kwargs with
    | Some c => Some c
    | None => dict_get n (pd.data df)
    end.
Proof.
  unfold assign_items. cbn [pd.data]. generalize (pd.data df).
  induction kwargs as [|[k c] kwargs IH]; intros data Hnd; [done|].
  rewrite fmap_cons in Hnd. apply NoDup_cons in Hnd as [Hk Hnd].
  cbn [fold_left fst snd dict_get]. rewrite (IH _ Hnd), dict_get_set.
  destruct (decide (n = k)) as [->|Hne]; [|done].
  by rewrite (proj2 (dict_get_None k kwargs) Hk).
Qed.

(** X7.  On a frame as the constructor builds it, once the expressions
    have evaluated: when some Series is named "self", [with_columns]
    fails with [TypeError] and returns no frame; otherwise it succeeds
    and never removes or moves a column: the result keeps the row labels,
    lists the frame's columns in their order followed by the names that
    are new, in the order of their first occurrence among the evaluated
    Series, and a column holds the cells of the last Series of its name,
    or its former cells when no Series has its name.  With no expression
    at all the result is the frame itself. *)
Theorem X7_with_columns_keeps_every_column_in_place
    (self : LazyFrame) (exprs : list Expr) (named_exprs : list (string * Expr))
    (new_series : list Series) :
  LazyFrame_ok self ->
  evaluate_into_exprs self exprs named_exprs = ret new_series ->
  let df := LazyFrame_dataframe self in
  ("self" ∈ name <$> new_series ->
   LazyFrame_with_columns self exprs named_exprs
   = ([call_assign df (dict_comprehension name series new_series)],
      inl (TypeError (Multiple_values_for_argument "self")))) /\
  ("self" ∉ name <$> new_series ->
   exists r,
    LazyFrame_with_columns self exprs named_exprs
    = ([call_assign df (dict_comprehension name series new_series)], inr r) /\
    pd.index (LazyFrame_dataframe r) = pd.index df /\
    pd.columns (LazyFrame_dataframe r)
    = pd.columns df
      ++ filter (fun n => n ∉ pd.columns df)
           (first_occurrences (name <$> new_series)) /\
    (forall n,
       dict_get n (pd.data (LazyFrame_dataframe r))
       = match last (filter (fun s => name s = n) new_series) with
         | Some s => Some (series s)
         | None => dict_get n (pd.data df)
         end) /\
    (new_series = [] -> r = self)).
Proof.
  intros Hok Heval df. split.
  { intros Hself. unfold LazyFrame_with_columns.
    rewrite Heval, bind_ret_l. cbv zeta. fold df.
    unfold pd_assign. rewrite decide_True; [done|].
    unfold dict_comprehension.
    rewrite dict_fold_elem_of. by left. }
  intros Hself.
  pose proof (LazyFrame_with_columns_eq self exprs named_exprs new_series
                Hok Heval Hself) as Heq.
  cbv zeta in Heq. fold df in Heq.
  eexists. split; [exact Heq|]. cbn [LazyFrame_dataframe _df].
  split; [done|]. split; [|split].
  - rewrite assign_items_columns by apply dict_comprehension_NoDup.
    by rewrite dict_comprehension_keys.
  - intros n. rewrite assign_items_get by apply dict_comprehension_NoDup.
    unfold dict_comprehension. rewrite dict_fold_get. simpl.
    by destruct (last (filter (fun s => name s = n) new_series)).
  - intros ->. destruct Hok as [_ Hcols]. unfold df, LazyFrame_dataframe in *.
    destruct self as [[idx data] api cols]. simpl in *. by rewrite Hcols.
Qed.

Lemma self_not_among_b_c_b : "self" ∉ ["b"; "c"; "b"].
Proof. apply (bool_decide_unpack _). vm_compute. exact I. Qed.

Lemma X7_with_columns_keeps_every_column_in_place_witness :
  exists r,
    LazyFrame_with_columns lazy_ab [col "b"] [("c", col "a"); ("b", col "a")]
    = ([call_assign frame_ab
          (dict_comprehension name series
             [mkSeries "b" [VInt 10; VInt 20; VInt 30];
              mkSeries "c" [VInt 1; VInt 2; VInt 1];
              mkSeries "b" [VInt 1; VInt 2; VInt 1]])], inr r) /\
    pd.columns (LazyFrame_dataframe r) = ["a"; "b"; "c"].
Proof.
  destruct (proj2 (X7_with_columns_keeps_every_column_in_place lazy_ab
              [col "b"] [("c", col "a"); ("b", col "a")]
              [mkSeries "b" [VInt 10; VInt 20; VInt 30];
               mkSeries "c" [VInt 1; VInt 2; VInt 1];
               mkSeries "b" [VInt 1; VInt 2; VInt 1]] lazy_ab_ok eq_refl)
              self_not_among_b_c_b)
    as (r & Heq & _ & Hcols & _).
  exists r. split; [exact Heq|]. rewrite Hcols. vm_compute. reflexivity.
Defined.

(** ** filter *)

Lemma LazyFrame_filter_boolean_eq (self : LazyFrame) predicates mask rest :
  LazyFrame_ok self ->
  pandas.all_horizontal (LazyFrame___lazyframe_namespace__ self) predicates self
  = inr (mask :: rest) ->
  length (series mask) = pd.nrows (LazyFrame_dataframe self) ->
  forallb is_bool (series mask) = true ->
  LazyFrame_filter self predicates
  = ([call_loc (LazyFrame_dataframe self) (series mask)],
     inr (mkLazyFrame
            (take_rows (true_positions 0 (series mask))
               (LazyFrame_dataframe self))
            (LazyFrame_api_version self)
            (pd.columns (LazyFrame_dataframe self)))).
Proof.
  intros Hok Hall Hlen Hbool. unfold LazyFrame_filter. cbv zeta.
  rewrite Hall, bind_lift_inr. simpl item0. rewrite bind_lift_inr.
  unfold validate_dataframe_comparand. rewrite decide_True by done.
  rewrite bind_lift_inr. unfold pd_loc. rewrite Hbool, decide_True by done.
  rewrite bind_perform_inr. by rewrite (LazyFrame_wrap_rows self _ Hok).
Qed.

Lemma true_positions_all_true i mask :
  Forall (eq (VBool true)) mask -> true_positions i mask = seq i (length mask).
Proof.
  intros Hall. revert i.
  induction Hall as [|v mask <- _ IH]; intros i; [done|].
  cbn [true_positions length seq]. rewrite decide_True by done.
  by rewrite IH.
Qed.

Lemma true_positions_all_false i mask :
  Forall (eq (VBool false)) mask -> true_positions i mask = [].
Proof.
  intros Hall. revert i.
  induction Hall as [|v mask <- _ IH]; intros i; [done|].
  cbn [true_positions]. rewrite decide_False by done. apply IH.
Qed.

Lemma take_seq_app {A} (pre l : list A) :
  take (seq (length pre) (length l)) (pre ++ l) = l.
Proof.
  revert pre. induction l as [|x l IH]; intros pre; [done|].
  unfold take in *. cbn [length seq omap list_omap].
  rewrite (list_lookup_middle pre l x (length pre) eq_refl). cbn.
  f_equal. specialize (IH (pre ++ [x])).
  rewrite length_app, <- app_assoc in IH. cbn in IH.
  by rewrite Nat.add_1_r in IH.
Qed.

Lemma take_seq {A} (l : list A) : take (seq 0 (length l)) l = l.
Proof. apply (take_seq_app [] l). Qed.

Lemma take_rows_seq df :
  pd.aligned df -> take_rows (seq 0 (pd.nrows df)) df = df.
Proof.
  intros Hal. destruct df as [idx data]. unfold take_rows, pd.aligned in *.
  cbn [pd.index pd.data pd.nrows] in *. f_equal; [apply take_seq|].
  induction data as [|[k c] data IH]; [done|].
  rewrite fmap_cons in Hal. apply Forall_cons in Hal as [Hc Hal].
  rewrite fmap_cons. f_equal; [|by apply IH].
  unfold prod_map. cbn in *. f_equal. rewrite <- Hc. apply take_seq.
Qed.

Lemma forallb_is_bool_const (b : bool) mask :
  Forall (eq (VBool b)) mask -> forallb is_bool mask = true.
Proof. induction 1 as [|v mask <- _ IH]; simpl; [done | exact IH]. Qed.

(** X8.  On a frame as the constructor builds it, whose columns all have
    one cell per row: filtering with a mask that is [True] on every row
    gives back the frame itself, and filtering with a mask that is [False]
    on every row gives a frame with the same columns and no row. *)
Theorem X8_filter_with_constant_mask
    (self : LazyFrame) (predicates : list Expr) (mask : Series)
    (rest : list Series) :
  LazyFrame_ok self ->
  pd.aligned (LazyFrame_dataframe self) ->
  pandas.all_horizontal (LazyFrame___lazyframe_namespace__ self) predicates self
  = inr (mask :: rest) ->
  length (series mask) = pd.nrows (LazyFrame_dataframe self) ->
  (Forall (eq (VBool true)) (series mask) ->
     LazyFrame_filter self predicates
     = ([call_loc (LazyFrame_dataframe self) (series mask)], inr self)) /\
  (Forall (eq (VBool false)) (series mask) ->
     LazyFrame_filter self predicates
     = ([call_loc (LazyFrame_dataframe self) (series mask)],
        inr (mkLazyFrame
               (pd.mkDataFrame []
                  ((fun c => (c.1, [])) <$> pd.data (LazyFrame_dataframe self)))
               (LazyFrame_api_version self) (LazyFrame_columns self)))).
Proof.
  intros Hok Hal Hall Hlen. split; intros Hmask.
  - rewrite (LazyFrame_filter_boolean_eq _ _ _ _ Hok Hall Hlen
               (forallb_is_bool_const _ _ Hmask)).
    rewrite (true_positions_all_true _ _ Hmask), Hlen, (take_rows_seq _ Hal).
    destruct Hok as [_ Hcols]. unfold LazyFrame_dataframe in *.
    rewrite <- Hcols. by destruct self.
  - rewrite (LazyFrame_filter_boolean_eq _ _ _ _ Hok Hall Hlen
               (forallb_is_bool_const _ _ Hmask)).
    rewrite (true_positions_all_false _ _ Hmask).
    destruct Hok as [_ Hcols]. unfold LazyFrame_dataframe in *.
    by rewrite <- Hcols.
Qed.

Lemma X8_filter_with_constant_mask_witness :
  LazyFrame_filter lazy_ab
    [fun _ => inr [mkSeries "m" [VBool true; VBool true; VBool true]]]
  = ([call_loc frame_ab [VBool true; VBool true; VBool true]], inr lazy_ab) /\
  LazyFrame_filter lazy_ab
    [fun _ => inr [mkSeries "m" [VBool false; VBool false; VBool false]]]
  = ([call_loc frame_ab [VBool false; VBool false; VBool false]],
     inr (mkLazyFrame (pd.mkDataFrame [] [("a", []); ("b", [])])
            "v1" ["a"; "b"])).
Proof.
  split.
  - apply (proj1 (X8_filter_with_constant_mask lazy_ab
             [fun _ => inr [mkSeries "m" [VBool true; VBool true; VBool true]]]
             (mkSeries "m" [VBool true; VBool true; VBool true]) []
             lazy_ab_ok frame_ab_aligned eq_refl eq_refl)).
    repeat constructor.
  - apply (proj2 (X8_filter_with_constant_mask lazy_ab
             [fun _ => inr [mkSeries "m" [VBool false; VBool false; VBool false]]]
             (mkSeries "m" [VBool false; VBool false; VBool false]) []
             lazy_ab_ok frame_ab_aligned eq_refl eq_refl)).
    repeat constructor.
Defined.

(** ** sort *)

Lemma LazyFrame_sort_inv pd_argsort (self : LazyFrame) keys descending t r :
  LazyFrame_sort pd_argsort self keys descending = (t, inr r) ->
  exists cols dirs,
    key_columns (sort_keys_of self keys) (pd.data (LazyFrame_dataframe self))
    = inr cols /\
    directions (length (sort_keys_of self keys)) (ascending_of descending)
    = inr dirs /\
    LazyFrame_dataframe r
    = take_rows
        (pd_argsort (row_compare dirs cols)
           (pd.nrows (LazyFrame_dataframe self)))
        (LazyFrame_dataframe self).
Proof.
  unfold LazyFrame_sort. cbv zeta.
  fold (sort_keys_of self keys). fold (ascending_of descending).
  intros H. bind_inv H.
  apply LazyFrame__from_dataframe_inv in H as (_ & _ & ->).
  unfold perform in Hstep. injection Hstep as _ Hsort.
  unfold pd_sort_values in Hsort.
  destruct (directions _ _) as [|dirs]; [done|].
  destruct (key_columns _ _) as [|cols]; [done|].
  injection Hsort as <-. by exists cols, dirs.
Qed.

Lemma take_Permutation {A} (ps : list nat) (l : list A) :
  ps ≡ₚ seq 0 (length l) -> take ps l ≡ₚ l.
Proof.
  intros Hps. unfold take. rewrite Hps. by rewrite (take_seq l) at 1.
Qed.

Lemma take_perm_length {A} (ps : list nat) (l : list A) :
  ps ≡ₚ seq 0 (length l) -> length (take ps l) = length l.
Proof.
  intros Hps. rewrite (Permutation_length (take_Permutation ps l Hps)). done.
Qed.

(** X9.  A successful [sort] only reorders rows, whichever sorting
    algorithm the engine uses: the resulting engine frame consists of the
    rows of the original, each taken exactly once; the row labels are a
    rearrangement of the original row labels, the columns keep their names
    and order, the row count is unchanged, and, when every column has one
    cell per row, each column holds a rearrangement of its former cells. *)
Theorem X9_sort_only_reorders_rows
    (pd_argsort : (nat -> nat -> comparison) -> nat -> list nat)
    (self : LazyFrame) (keys : list (string + list string))
    (descending : bool + list bool) (t : list call) (r : LazyFrame) :
  engine_sorts pd_argsort ->
  LazyFrame_sort pd_argsort self keys descending = (t, inr r) ->
  let df := LazyFrame_dataframe self in
  exists ps,
    ps ≡ₚ seq 0 (pd.nrows df) /\
    LazyFrame_dataframe r = take_rows ps df /\
    pd.index (LazyFrame_dataframe r) ≡ₚ pd.index df /\
    pd.columns (LazyFrame_dataframe r) = pd.columns df /\
    pd.nrows (LazyFrame_dataframe r) = pd.nrows df /\
    (pd.aligned df ->
     Forall2 (fun c' c => c'.1 = c.1 /\ c'.2 ≡ₚ c.2)
       (pd.data (LazyFrame_dataframe r)) (pd.data df)).
Proof.
  intros Hengine Hsort df.
  destruct (LazyFrame_sort_inv _ _ _ _ _ _ Hsort)
    as (cols & dirs & _ & _ & Hr).
  fold df in Hr.
  set (ps := pd_argsort (row_compare dirs cols) (pd.nrows df)) in *.
  assert (ps ≡ₚ seq 0 (pd.nrows df)) as Hps
    by apply (Hengine _ _ (row_compare_is_ordering dirs cols)).
  exists ps. rewrite Hr. split; [done|]. split; [done|].
  split; [|split; [|split]].
  - rewrite take_rows_index. by apply take_Permutation.
  - apply take_rows_columns.
  - unfold pd.nrows. rewrite take_rows_index. by apply take_perm_length.
  - intros Hal. clear Hr. unfold take_rows, pd.aligned in *. cbn [pd.data].
    induction (pd.data df) as [|[k c] data IH]; [constructor|].
    rewrite fmap_cons in Hal. apply Forall_cons in Hal as [Hc Hal].
    rewrite fmap_cons. constructor; [|by apply IH].
    split; [done|]. cbn in *. apply take_Permutation. by rewrite Hc.
Qed.

Lemma X9_sort_only_reorders_rows_witness :
  exists ps,
    ps ≡ₚ seq 0 3 /\
    pd.mkDataFrame [1; 0; 2]%Z
      [("a", [VInt 2; VInt 1; VInt 1]); ("b", [VInt 20; VInt 10; VInt 30])]
    = take_rows ps frame_ab.
Proof.
  destruct (X9_sort_only_reorders_rows stable_argsort
              lazy_ab [inl "a"] (inl true)
              [call_sort_values frame_ab ["a"] (inl false)]
              (mkLazyFrame
                 (pd.mkDataFrame [1; 0; 2]%Z
                    [("a", [VInt 2; VInt 1; VInt 1]);
                     ("b", [VInt 20; VInt 10; VInt 30])])
                 "v1" ["a"; "b"]) stable_argsort_sorts eq_refl)
    as (ps & Hps & Hr & _).
  exists ps. split; [exact Hps | exact Hr].
Defined.

(** ** join *)

Lemma overlap_of_comm (a a_on b b_on : list string) :
  overlap_of a a_on b b_on = overlap_of b b_on a a_on.
Proof. unfold overlap_of. apply (comm_L (∩)). Qed.

Lemma inner_is_supported : bool_decide ("inner" ∉ ["inner"]) = false.
Proof. apply bool_decide_eq_false_2. intros Hn. apply Hn. left. Qed.

Lemma trace_perform_wrap {A B} (c : call) (r : exn + A) (k : A -> M B) :
  (forall x, trace (k x) = []) -> trace (bind (perform c r) k) = [c].
Proof.
  intros Hk. rewrite trace_bind. simpl. destruct r as [e|x]; [done|].
  by rewrite Hk.
Qed.

Lemma LazyFrame_join_collision_iff pd_merge (a b : LazyFrame)
    (left_on right_on : string + list string) (s : gset string) :
  LazyFrame_join pd_merge a b "inner" left_on right_on
  = ([], inl (ValueError (Found_overlapping_columns s)))
  <-> s ≠ ∅ /\
      s = overlap_of (LazyFrame_columns a) (normalize_on left_on)
            (LazyFrame_columns b) (normalize_on right_on).
Proof.
  unfold LazyFrame_join. rewrite inner_is_supported. cbv zeta.
  case_bool_decide as Hov.
  - split.
    + intros [= <-]. done.
    + intros [_ ->]. done.
  - split.
    + intros Heq. apply (f_equal trace) in Heq.
      rewrite trace_perform_wrap in Heq; [discriminate|].
      intros df. apply LazyFrame_init_trace.
    + intros [Hs ->]. done.
Qed.

(** X11.  The collision check of [join] is symmetric: joining [a] with [b]
    is refused for overlapping columns exactly when joining [b] with [a],
    keys swapped, is refused, and both report the same set of names;
    whatever the engine's merge would do. *)
Theorem X11_join_collision_check_is_symmetric
    (pd_merge pd_merge' : pd.DataFrame -> pd.DataFrame -> list string ->
                          list string -> string -> exn + pd.DataFrame)
    (a b : LazyFrame) (left_on right_on : string + list string)
    (s : gset string) :
  LazyFrame_join pd_merge a b "inner" left_on right_on
  = ([], inl (ValueError (Found_overlapping_columns s)))
  <-> LazyFrame_join pd_merge' b a "inner" right_on left_on
      = ([], inl (ValueError (Found_overlapping_columns s))).
Proof.
  rewrite !LazyFrame_join_collision_iff.
  by rewrite (overlap_of_comm (LazyFrame_columns a)).
Qed.

(** X12.  A name used as a join key on either side is never counted as a
    collision, even when the other frame has a column of that name that
    is not a key there.  So when every name the two frames have in common
    is a key of at least one side, an inner [join] is not refused: it
    performs the engine's merge. *)
Theorem X12_join_keys_are_never_collisions
    (pd_merge : pd.DataFrame -> pd.DataFrame -> list string -> list string ->
                string -> exn + pd.DataFrame)
    (a b : LazyFrame) (left_on right_on : string + list string) :
  let lo := normalize_on left_on in
  let ro := normalize_on right_on in
  (forall n, n ∈ lo \/ n ∈ ro ->
     n ∉ overlap_of (LazyFrame_columns a) lo (LazyFrame_columns b) ro) /\
  ((forall n, n ∈ LazyFrame_columns a -> n ∈ LazyFrame_columns b ->
              n ∈ lo \/ n ∈ ro) ->
   trace (LazyFrame_join pd_merge a b "inner" left_on right_on)
   = [call_merge (LazyFrame_dataframe a) (LazyFrame_dataframe b)
        lo ro "inner"]).
Proof.
  intros lo ro. split.
  - intros n Hn. rewrite overlap_of_spec. tauto.
  - intros Hshared. unfold LazyFrame_join. rewrite inner_is_supported.
    cbv zeta. fold lo ro. rewrite bool_decide_eq_false_2.
    + apply trace_perform_wrap. intros df. apply LazyFrame_init_trace.
    + intros Hne. apply Hne. apply set_eq. intros n.
      rewrite overlap_of_spec, elem_of_empty.
      split; [|done]. intros [[Ha Hlo] [Hb Hro]].
      destruct (Hshared n Ha Hb); done.
Qed.

Lemma X12_join_keys_are_never_collisions_witness :
  trace (LazyFrame_join merge_left lazy_id_x lazy_x_y "inner"
           (inl "id") (inl "x"))
  = [call_merge frame_id_x frame_x_y ["id"] ["x"] "inner"].
Proof.
  apply (proj2 (X12_join_keys_are_never_collisions merge_left
                  lazy_id_x lazy_x_y (inl "id") (inl "x"))).
  intros n Ha Hb. simpl in *.
  apply elem_of_cons in Ha as [->|Ha].
  - left. left.
  - apply list_elem_of_singleton in Ha as ->. right. left.
Defined.

(** ** shape *)

Lemma LazyFrame_sort_shape pd_argsort self keys descending t r :
  engine_sorts pd_argsort ->
  LazyFrame_sort pd_argsort self keys descending = (t, inr r) ->
  pd_shape (LazyFrame_dataframe r) = pd_shape (LazyFrame_dataframe self).
Proof.
  intros Hengine (cols & dirs & _ & _ & ->)%LazyFrame_sort_inv.
  unfold pd_shape, pd.nrows. rewrite take_rows_index. f_equal.
  - apply take_perm_length. apply Hengine, row_compare_is_ordering.
  - unfold take_rows. cbn [pd.data]. apply length_fmap.
Qed.

Lemma LazyFrame_filter_inv self predicates t r :
  LazyFrame_filter self predicates = (t, inr r) ->
  exists ps, LazyFrame_dataframe r = take_rows ps (LazyFrame_dataframe self).
Proof.
  unfold LazyFrame_filter. cbv zeta. intros H. bind_inv H.
  apply LazyFrame__from_dataframe_inv in H as (_ & _ & ->).
  unfold perform in Hstep2. injection Hstep2 as _ Hloc.
  unfold pd_loc in Hloc. destruct (forallb is_bool _).
  - case_decide; [|done]. injection Hloc as <-. eauto.
  - destruct (rows_of_labels _ _) as [|ps]; [done|].
    injection Hloc as <-. eauto.
Qed.

Lemma LazyFrame_with_columns_inv self exprs named_exprs t r :
  LazyFrame_with_columns self exprs named_exprs = (t, inr r) ->
  exists kwargs,
    LazyFrame_dataframe r = assign_items (LazyFrame_dataframe self) kwargs.
Proof.
  unfold LazyFrame_with_columns. intros H. bind_inv H.
  apply LazyFrame__from_dataframe_inv in H as (_ & _ & ->).
  unfold perform, pd_assign in Hstep0. case_decide; [done|].
  injection Hstep0 as _ <-. eauto.
Qed.

Lemma dict_set_length {V} k (v : V) d : length d <= length (dict_set k v d).
Proof.
  induction d as [|[k' v'] d IH]; simpl; [lia|]. case_decide; simpl; lia.
Qed.

Lemma assign_items_length df kwargs :
  length (pd.data df) <= length (pd.data (assign_items df kwargs)).
Proof.
  unfold assign_items. cbn [pd.data]. generalize (pd.data df).
  induction kwargs as [|[k c] kwargs IH]; intros data; simpl; [lia|].
  etransitivity; [|apply IH]. apply dict_set_length.
Qed.

(** X14.  [shape] across the eager operations: a successful [sort] leaves
    the shape unchanged, whichever sorting algorithm the engine uses; a
    successful [filter] leaves the number of columns and the column names
    unchanged; a successful [with_columns] leaves the number of rows
    unchanged and never lowers the number of columns. *)
Theorem X14_shape_across_eager_operations
    (pd_argsort : (nat -> nat -> comparison) -> nat -> list nat)
    (self : DataFrame)
    (exprs : list Expr) (named_exprs : list (string * Expr))
    (predicates : list Expr)
    (keys : list (string + list string)) (descending : bool + list bool)
    (t : list call) (r : DataFrame) :
  (engine_sorts pd_argsort ->
   DataFrame_sort pd_argsort self keys descending = (t, inr r) ->
     DataFrame_shape r = DataFrame_shape self) /\
  (DataFrame_filter self predicates = (t, inr r) ->
     (DataFrame_shape r).2 = (DataFrame_shape self).2 /\
     DataFrame_columns r = pd.columns (DataFrame_dataframe self)) /\
  (DataFrame_with_columns self exprs named_exprs = (t, inr r) ->
     (DataFrame_shape r).1 = (DataFrame_shape self).1 /\
     (DataFrame_shape self).2 <= (DataFrame_shape r).2).
Proof.
  unfold DataFrame_shape. split; [intros Hengine H|split; intros H].
  - unfold DataFrame_sort in H. bind_inv H.
    apply LazyFrame_collect_inv in H as (_ & _ & ->).
    apply (LazyFrame_sort_shape _ _ _ _ _ _ Hengine) in Hstep0 as ->.
    by apply DataFrame_lazy_inv in Hstep as (_ & _ & ->).
  - unfold DataFrame_filter in H. bind_inv H.
    apply LazyFrame_collect_inv in H as ([_ Hcols] & _ & Hr).
    apply LazyFrame_filter_inv in Hstep0 as [ps Hps].
    apply DataFrame_lazy_inv in Hstep as (_ & _ & Hl).
    unfold DataFrame_dataframe, LazyFrame_dataframe in *.
    rewrite Hcols, Hr, Hps, Hl, take_rows_columns. split; [|done].
    unfold pd_shape, take_rows. cbn. apply length_fmap.
  - unfold DataFrame_with_columns in H. bind_inv H.
    apply LazyFrame_collect_inv in H as (_ & _ & ->).
    apply LazyFrame_with_columns_inv in Hstep0 as [kwargs ->].
    apply DataFrame_lazy_inv in Hstep as (_ & _ & ->).
    split; [done|]. apply assign_items_length.
Qed.

Lemma X14_shape_across_eager_operations_witness :
  DataFrame_shape
    (mkDataFrame
       (pd.mkDataFrame [1; 0; 2]%Z
          [("a", [VInt 2; VInt 1; VInt 1]); ("b", [VInt 20; VInt 10; VInt 30])])
       "v1" ["a"; "b"])
  = DataFrame_shape eager_ab.
Proof.
  apply (proj1 (X14_shape_across_eager_operations stable_argsort
                  eager_ab [] [] []
                  [inl "a"] (inl true)
                  [call_sort_values frame_ab ["a"] (inl false)] _)
           stable_argsort_sorts).
  vm_compute. reflexivity.
Defined.

(** ** repr *)

Lemma py_len_app (s1 s2 : string) : py_len (s1 +:+ s2) = py_len s1 + py_len s2.
Proof. induction s1 as [|a s1 IH]; simpl; [done|]. rewrite IH. lia. Qed.

Lemma py_len_repeat (s : string) (n : nat) :
  py_len (str_repeat s n) = n * py_len s.
Proof.
  induction n as [|n IH]; [done|]. cbn [str_repeat].
  rewrite py_len_app, IH. lia.
Qed.

Lemma string_app_assoc (s1 s2 s3 : string) :
  (s1 +:+ s2) +:+ s3 = s1 +:+ (s2 +:+ s3).
Proof.
  induction s1 as [|a s1 IH]; [done|].
  change (String a ((s1 +:+ s2) +:+ s3) = String a (s1 +:+ (s2 +:+ s3))).
  by rewrite IH.
Qed.

(** X15.  The text of [__repr__] is four lines: a top border, the header
    between two bars, the fixed hint line, and a bottom border.  The
    borders and the header line are equally wide, 37 characters more than
    the version string, while the hint line is always 49 characters wide:
    the box is rectangular exactly when the version string has 12
    characters.  A [LazyFrame] prints the same text as a [DataFrame] of
    the same version, "Standard DataFrame" included. *)
Theorem X15_repr_layout (d : DataFrame) (l : LazyFrame) :
  (DataFrame_api_version d = LazyFrame_api_version l ->
   LazyFrame___repr__ l = DataFrame___repr__ d) /\
  exists top header_line bottom,
    DataFrame___repr__ d
    = top +:+ nl +:+ header_line +:+ nl
      +:+ "| Add `.dataframe` to see native output         |" +:+ nl
      +:+ bottom +:+ nl /\
    py_len top = 37 + py_len (DataFrame_api_version d) /\
    py_len header_line = 37 + py_len (DataFrame_api_version d) /\
    py_len bottom = 37 + py_len (DataFrame_api_version d) /\
    py_len "| Add `.dataframe` to see native output         |" = 49 /\
    (py_len top = 49 <-> py_len (DataFrame_api_version d) = 12).
Proof.
  split.
  - intros Hv. unfold LazyFrame___repr__, DataFrame___repr__. by rewrite Hv.
  - set (header := " Standard DataFrame (api_version="
                   +:+ DataFrame_api_version d +:+ ") ").
    assert (py_len header = 35 + py_len (DataFrame_api_version d)) as Hh.
    { unfold header. rewrite !py_len_app. simpl. lia. }
    exists ("┌" +:+ str_repeat "─" (py_len header) +:+ "┐"),
           ("|" +:+ header +:+ "|"),
           ("└" +:+ str_repeat "─" (py_len header) +:+ "┘").
    assert (py_len "─" = 1) as Hdash by reflexivity.
    assert (py_len "┌" = 1 /\ py_len "┐" = 1 /\ py_len "└" = 1 /\
            py_len "┘" = 1 /\ py_len "|" = 1) as (H1 & H2 & H3 & H4 & H5)
      by (repeat split; reflexivity).
    split; [|split; [|split; [|split; [|split]]]].
    + unfold DataFrame___repr__. cbv zeta. fold header.
      by rewrite !string_app_assoc.
    + rewrite !py_len_app, py_len_repeat, Hdash, H1, H2, Hh. lia.
    + rewrite !py_len_app, H5, Hh. lia.
    + rewrite !py_len_app, py_len_repeat, Hdash, H3, H4, Hh. lia.
    + reflexivity.
    + rewrite !py_len_app, py_len_repeat, Hdash, H1, H2, Hh. lia.
Qed.

Lemma X15_repr_layout_witness :
  LazyFrame___repr__ lazy_ab = DataFrame___repr__ eager_ab.
Proof. apply (proj1 (X15_repr_layout eager_ab lazy_ab)). reflexivity. Defined.

(** ** One flag or one flag per key *)

Lemma pd_sort_values_flag pd_argsort df by_ (b : bool) :
  pd_sort_values pd_argsort df by_ (inr (replicate (length by_) b))
  = pd_sort_values pd_argsort df by_ (inl b).
Proof.
  unfold pd_sort_values. simpl.
  by rewrite decide_True by apply length_replicate.
Qed.

(** X16.  Giving [sort] a single [descending] flag is the same as giving
    it one copy of that flag per key: the two calls fail alike or return
    the same frame (only the form of the [ascending] argument handed to
    the engine differs). *)
Theorem X16_sort_single_flag_is_one_flag_per_key
    (pd_argsort : (nat -> nat -> comparison) -> nat -> list nat)
    (self : LazyFrame) (keys : list (string + list string)) (d : bool) :
  outcome (LazyFrame_sort pd_argsort self keys
             (inr (replicate (length (sort_keys_of self keys)) d)))
  = outcome (LazyFrame_sort pd_argsort self keys (inl d)).
Proof.
  unfold LazyFrame_sort. cbv zeta. fold (sort_keys_of self keys).
  rewrite fmap_replicate.
  rewrite <- (pd_sort_values_flag _ _ _ (negb d)).
  unfold perform, bind.
  destruct (pd_sort_values _ _ _ _) as [e|df]; [done|].
  by destruct (LazyFrame__from_dataframe self df).
Qed.
